(** * Dissemin deposit protocol: the repository contract and the OSF backend

    A shallow embedding of [deposit/protocol.py] (the [DepositResult] value
    object, the [RepositoryProtocol] contract with its submission wrapper and
    request logger) and of [deposit/osf/protocol.py] (the OSF backend), with
    the properties of the specification stated over it.

    Conventions.
    - A Python unicode string is a [string]; each [ascii] stands for one code
      point below 256.  A byte string is a [string] too; where Python 2
      converts between the two it uses the ascii codec, which fails on a
      character that is not ASCII ([PyStr.is_ascii]).
    - [None] is the [None] of an [option].
    - Code that mutates the protocol instance, talks to the network or calls
      the surrounding Django application runs in the monad [M]: a state
      (the instance and a journal of what reached the outside world) and an
      outcome that is a value or a raised exception.  What was mutated before
      an exception is raised stays mutated, as in Python. *)

From Stdlib Require Import String Ascii List ZArith Bool Lia DecimalString.
Import ListNotations.
Open Scope list_scope.
Open Scope string_scope.

Set Implicit Arguments.

(** ** Python strings *)

Module PyStr.

(** [unicode.isspace] on the code points below 256 (Python 2.7):
    TAB..CR, FS..US, SPACE, NEL and NBSP. *)
Definition isspace (c : ascii) : bool :=
  let n := nat_of_ascii c in
  (((9 <=? n) && (n <=? 13)) || ((28 <=? n) && (n <=? 32))
   || (n =? 133) || (n =? 160))%nat.

Fixpoint all (p : ascii -> bool) (s : string) : bool :=
  match s with
  | EmptyString => true
  | String c s' => p c && all p s'
  end.

Definition first (s : string) : option ascii :=
  match s with EmptyString => None | String c _ => Some c end.

Fixpoint last (s : string) : option ascii :=
  match s with
  | EmptyString => None
  | String c EmptyString => Some c
  | String _ s' => last s'
  end.

Definition nonempty (s : string) : bool :=
  match s with EmptyString => false | _ => true end.

(** [s.split(sep)] for a one-character separator. *)
Fixpoint split (sep : ascii) (s : string) : list string :=
  match s with
  | EmptyString => [EmptyString]
  | String c s' =>
      if Ascii.eqb c sep then EmptyString :: split sep s'
      else match split sep s' with
           | [] => [String c EmptyString]
           | p :: ps => String c p :: ps
           end
  end.

(** [sep.join(pieces)]. *)
Fixpoint join (sep : ascii) (pieces : list string) : string :=
  match pieces with
  | [] => EmptyString
  | [p] => p
  | p :: ps => p ++ String sep (join sep ps)
  end.

Fixpoint lstrip (s : string) : string :=
  match s with
  | EmptyString => EmptyString
  | String c s' => if isspace c then lstrip s' else s
  end.

Fixpoint rstrip (s : string) : string :=
  match s with
  | EmptyString => EmptyString
  | String c s' =>
      match rstrip s' with
      | EmptyString => if isspace c then EmptyString else String c EmptyString
      | r => String c r
      end
  end.

(** [s.strip()]. *)
Definition strip (s : string) : string := rstrip (lstrip s).

Fixpoint mem (c : ascii) (s : string) : bool :=
  match s with
  | EmptyString => false
  | String d s' => Ascii.eqb d c || mem c s'
  end.

Fixpoint startswith (p s : string) : bool :=
  match p, s with
  | EmptyString, _ => true
  | String a p', String b s' => Ascii.eqb a b && startswith p' s'
  | String _ _, EmptyString => false
  end.

(** [p in s] for strings. *)
Fixpoint contains (p s : string) : bool :=
  startswith p s ||
  match s with
  | EmptyString => false
  | String _ s' => contains p s'
  end.

Fixpoint drop (n : nat) (s : string) : string :=
  match n, s with
  | O, _ => s
  | S n', String _ s' => drop n' s'
  | S _, EmptyString => EmptyString
  end.

Fixpoint take (n : nat) (s : string) : string :=
  match n, s with
  | S n', String c s' => String c (take n' s')
  | _, _ => EmptyString
  end.

(** [s.endswith(q)]. *)
Definition endswith (q s : string) : bool :=
  (String.length q <=? String.length s)%nat
  && String.eqb (drop (String.length s - String.length q) s) q.

(** [s[:-k]]: the string without its last [k] characters ([k > 0]). *)
Definition drop_last (k : nat) (s : string) : string :=
  take (String.length s - k) s.

(** [s.replace(old, new)], for a non-empty [old]: occurrences are
    replaced from left to right, without overlap.  [skip] counts the
    characters of an occurrence that are still to be passed over. *)
Fixpoint replace_from (skip : nat) (old new s : string) : string :=
  match s with
  | EmptyString => EmptyString
  | String c s' =>
      match skip with
      | S k => replace_from k old new s'
      | O =>
          if startswith old s
          then new ++ replace_from (String.length old - 1) old new s'
          else String c (replace_from 0 old new s')
      end
  end.

Definition replace (old new s : string) : string := replace_from 0 old new s.

(** [bool(s)] for a value that is a string or [None]. *)
Definition truthy (o : option string) : bool :=
  match o with Some s => nonempty s | None => false end.

(** ['%d' % z]. *)
Definition of_Z (z : Z) : string := NilZero.string_of_int (Z.to_int z).

(** The text can be encoded, or decoded, with the ascii codec: Python 2
    uses that codec whenever a byte string meets a unicode string. *)
Definition is_ascii (s : string) : bool :=
  all (fun c => (nat_of_ascii c <? 128)%nat) s.

End PyStr.

(** ** The validated metadata form ([form.cleaned_data]) *)

Record Form := {
  form_abstract : string;
  form_tags : string;
  form_license : string
}.

(** ** [OSFProtocol.create_tags] *)

Definition comma : ascii := ","%char.

Definition create_tags (form : Form) : list string :=
  let tags := PyStr.split comma (form_tags form) in
  let tags := map PyStr.strip tags in
  let tags := filter PyStr.nonempty tags in
  tags.

(** ** Exceptions *)

Inductive exn_class :=
| DepositError        (* deposit.protocol.DepositError *)
| ValueError
| NameError
| TypeError
| KeyError
| IndexError
| AttributeError
| IOError
| UnicodeEncodeError
| UnicodeDecodeError
| KeyboardInterrupt   (* derives from BaseException only *)
| SystemExit          (* derives from BaseException only *)
| OtherException (qualified_name : string).  (* any other subclass of Exception *)

(** An exception object: its class, [e.args] and its text, which [str(e)]
    has to encode as a byte string. *)
Record exn := {
  exn_class_of : exn_class;
  exn_args : list string;
  exn_str : string
}.

Definition new_exn (c : exn_class) (msg : string) : exn :=
  {| exn_class_of := c; exn_args := [msg]; exn_str := msg |}.

(** [isinstance(e, DepositError)]. *)
Definition is_DepositError (e : exn) : bool :=
  match exn_class_of e with DepositError => true | _ => false end.

(** [isinstance(e, Exception)]. *)
Definition is_Exception (e : exn) : bool :=
  match exn_class_of e with
  | KeyboardInterrupt | SystemExit => false
  | _ => true
  end.

(** [str(type(e))]. *)
Definition type_repr (e : exn) : string :=
  match exn_class_of e with
  | DepositError => "<class 'deposit.protocol.DepositError'>"
  | ValueError => "<type 'exceptions.ValueError'>"
  | NameError => "<type 'exceptions.NameError'>"
  | TypeError => "<type 'exceptions.TypeError'>"
  | KeyError => "<type 'exceptions.KeyError'>"
  | IndexError => "<type 'exceptions.IndexError'>"
  | AttributeError => "<type 'exceptions.AttributeError'>"
  | IOError => "<type 'exceptions.IOError'>"
  | UnicodeEncodeError => "<type 'exceptions.UnicodeEncodeError'>"
  | UnicodeDecodeError => "<type 'exceptions.UnicodeDecodeError'>"
  | KeyboardInterrupt => "<type 'exceptions.KeyboardInterrupt'>"
  | SystemExit => "<type 'exceptions.SystemExit'>"
  | OtherException n => "<class '" ++ n ++ "'>"
  end.

Inductive outcome (A : Type) : Type :=
| Ok (a : A)
| Raise (e : exn).
Arguments Ok {A} a.
Arguments Raise {A} e.

(** ** JSON values (request payloads and response bodies) *)

#[local] Unset Elimination Schemes.
Inductive json :=
| JNull
| JBool (b : bool)
| JInt (z : Z)
| JStr (s : string)
| JList (l : list json)
| JDict (l : list (string * json)).
#[local] Set Elimination Schemes.

Fixpoint assoc (k : string) (l : list (string * json)) : option json :=
  match l with
  | [] => None
  | (k', v) :: l' => if String.eqb k k' then Some v else assoc k l'
  end.

(** [j[k]] for a string key. *)
Definition getitem (j : json) (k : string) : outcome json :=
  match j with
  | JDict l =>
      match assoc k l with
      | Some v => Ok v
      | None => Raise (new_exn KeyError k)
      end
  | _ => Raise (new_exn TypeError "indices must be integers")
  end.

(** ** The records the core consumes and produces *)

Record User := {
  user_name : string;
  first_name : string;
  last_name : string
}.

Record Author := { author_first : string; author_last : string }.

Record BibRecord := { doi : option string }.

(** A paper, with what [paper.json()] exposes: authors, records, date. *)
Record Paper := {
  pk : Z;
  title : string;
  authors : list Author;
  records : list BibRecord;
  date : string
}.

Record Repository := {
  repository_name : string;
  repository_id : Z;
  oaisource : string;
  endpoint : option string;
  api_key : option string
}.

Record BareOaiRecord := {
  rec_source : string;
  rec_identifier : string;
  rec_splash_url : option string;
  rec_pdf_url : option string
}.

Record DepositResult := {
  identifier : option string;
  splash_url : option string;
  pdf_url : option string;
  logs : option string;
  status : string;
  message : option string;
  oairecord : option BareOaiRecord;
  additional_info : list string
}.

Definition set_result_logs (r : DepositResult) (l : option string) : DepositResult :=
  {| identifier := identifier r; splash_url := splash_url r; pdf_url := pdf_url r;
     logs := l; status := status r; message := message r;
     oairecord := oairecord r; additional_info := additional_info r |}.

Definition set_result_oairecord (r : DepositResult) (o : option BareOaiRecord)
  : DepositResult :=
  {| identifier := identifier r; splash_url := splash_url r; pdf_url := pdf_url r;
     logs := logs r; status := status r; message := message r;
     oairecord := o; additional_info := additional_info r |}.

(** The notification payload, a dict with three keys. *)
Record Payload := {
  payload_name : string;
  payload_repo : string;
  payload_paperurl : string
}.

Inductive http_method := GET | POST | PUT | PATCH.

Inductive body :=
| NoBody
| Text (s : string)          (* the output of [json.dumps] *)
| FileContent (s : string).   (* an open file *)

Record request := {
  req_method : http_method;
  req_url : string;
  req_data : body;
  req_headers : list (string * string)
}.

Record response := {
  resp_url : string;
  status_code : Z;
  text : string;
  json_body : option json   (* [None]: [r.json()] raises ValueError *)
}.

(** What reaches the outside world, in order. *)
Inductive event :=
| Http (rq : request)
| OpenFile (path : string)
| AddOaiRecord (r : BareOaiRecord)
| Notify (p : Payload).

(** ** The protocol instance and the monad *)

Record protocol := {
  repository : Repository;
  _logs : option string;
  paper : option Paper;
  user : option User;
  (* attributes of OSFProtocol; the last five exist once assigned *)
  api_url : option string;
  no_license_id : string;
  license_id : option string;
  pub_date : option string;
  headers : option (list (string * string));
  node_id : option json;
  storage_url : option string
}.

Record state := { self : protocol; journal : list event }.

Definition M (A : Type) : Type := state -> outcome A * state.

Definition ret {A} (a : A) : M A := fun st => (Ok a, st).

Definition bind {A B} (m : M A) (f : A -> M B) : M B :=
  fun st =>
    match m st with
    | (Ok a, st') => f a st'
    | (Raise e, st') => (Raise e, st')
    end.

Definition raise {A} (e : exn) : M A := fun st => (Raise e, st).

Definition lift {A} (o : outcome A) : M A := fun st => (o, st).

Definition gets {A} (f : protocol -> A) : M A := fun st => (Ok (f (self st)), st).

Definition modify (f : protocol -> protocol) : M unit :=
  fun st => (Ok tt, {| self := f (self st); journal := journal st |}).

Definition emit (ev : event) : M unit :=
  fun st => (Ok tt, {| self := self st; journal := (journal st ++ [ev])%list |}).

Definition history : M (list event) := fun st => (Ok (journal st), st).

Notation "x <- m ;; k" := (bind m (fun x => k))
  (at level 61, m at next level, right associativity).
Notation "m ;;; k" := (bind m (fun _ => k))
  (at level 61, right associativity).

(** A [try] statement with [except] clauses: [handler e] is the body of the
    first clause that matches [e], or [None] when no clause does.  An
    exception raised by a handler is not caught by the other clauses. *)
Definition try_except {A} (body : M A) (handler : exn -> option (M A)) : M A :=
  fun st =>
    match body st with
    | (Ok a, st') => (Ok a, st')
    | (Raise e, st') =>
        match handler e with
        | Some h => h st'
        | None => (Raise e, st')
        end
    end.

(** Reading an attribute that holds [None] where an object is needed, or
    that was never assigned. *)
Definition attr {A} (name : string) (f : protocol -> option A) : M A :=
  o <- gets f ;;
  match o with
  | Some a => ret a
  | None => raise (new_exn AttributeError name)
  end.

Definition set_logs (l : option string) (p : protocol) : protocol :=
  {| repository := repository p; _logs := l; paper := paper p; user := user p;
     api_url := api_url p; no_license_id := no_license_id p;
     license_id := license_id p; pub_date := pub_date p; headers := headers p;
     node_id := node_id p; storage_url := storage_url p |}.

Definition set_paper_user (pa : Paper) (u : User) (p : protocol) : protocol :=
  {| repository := repository p; _logs := _logs p; paper := Some pa; user := Some u;
     api_url := api_url p; no_license_id := no_license_id p;
     license_id := license_id p; pub_date := pub_date p; headers := headers p;
     node_id := node_id p; storage_url := storage_url p |}.

Definition set_license_id (l : string) (p : protocol) : protocol :=
  {| repository := repository p; _logs := _logs p; paper := paper p; user := user p;
     api_url := api_url p; no_license_id := no_license_id p;
     license_id := Some l; pub_date := pub_date p; headers := headers p;
     node_id := node_id p; storage_url := storage_url p |}.

Definition set_pub_date (d : string) (p : protocol) : protocol :=
  {| repository := repository p; _logs := _logs p; paper := paper p; user := user p;
     api_url := api_url p; no_license_id := no_license_id p;
     license_id := license_id p; pub_date := Some d; headers := headers p;
     node_id := node_id p; storage_url := storage_url p |}.

Definition set_headers (h : list (string * string)) (p : protocol) : protocol :=
  {| repository := repository p; _logs := _logs p; paper := paper p; user := user p;
     api_url := api_url p; no_license_id := no_license_id p;
     license_id := license_id p; pub_date := pub_date p; headers := Some h;
     node_id := node_id p; storage_url := storage_url p |}.

Definition set_node_id (n : json) (p : protocol) : protocol :=
  {| repository := repository p; _logs := _logs p; paper := paper p; user := user p;
     api_url := api_url p; no_license_id := no_license_id p;
     license_id := license_id p; pub_date := pub_date p; headers := headers p;
     node_id := Some n; storage_url := storage_url p |}.

Definition set_storage_url (u : string) (p : protocol) : protocol :=
  {| repository := repository p; _logs := _logs p; paper := paper p; user := user p;
     api_url := api_url p; no_license_id := no_license_id p;
     license_id := license_id p; pub_date := pub_date p; headers := headers p;
     node_id := node_id p; storage_url := Some u |}.

(** ** The surroundings of the core

    What the core calls and does not define: the Django application
    (settings, URL resolver, translations, the paper model), the Python
    runtime and the [json] and [requests] libraries. *)

Record environment := {
  (** [deposit.models.DEPOSIT_STATUS_CHOICES]: pairs (value, label). *)
  DEPOSIT_STATUS_CHOICES : list (string * string);
  (** [django.utils.translation.ugettext], imported as [__]. *)
  ugettext : string -> string;
  (** [django.core.urlresolvers.reverse(viewname, args=...)]. *)
  reverse : string -> list Z -> outcome string;
  (** [settings.DEPOSIT_NOTIFICATION_CALLBACK]. *)
  DEPOSIT_NOTIFICATION_CALLBACK : Payload -> outcome unit;
  (** [paper.add_oairecord(rec)]. *)
  add_oairecord : Paper -> BareOaiRecord -> outcome BareOaiRecord;
  (** [traceback.format_exc()] while the given exception is handled: a
      byte string. *)
  format_exc : exn -> string;
  (** [json.dumps(v)] and [json.dumps(v, indent=4)]. *)
  dumps : json -> string;
  dumps_indent4 : json -> string;
  (** [requests.get/post/put/patch]: the reply may depend on what was
      sent before. *)
  requests_send : list event -> request -> outcome response;
  (** [open(path, 'r')]. *)
  open_file : string -> outcome string;
  (** [unicode(v)] for a value that is not a string. *)
  str_of_json : json -> string;
  (** [str(list(set(values)))], for hashable values. *)
  str_list_set : list json -> string
}.

Definition nl : string := String (ascii_of_nat 10) EmptyString.

(** [unicode(v)], ["{}".format(v)]. *)
Definition unicode_json (env : environment) (v : json) : string :=
  match v with
  | JStr s => s
  | _ => str_of_json env v
  end.

(** [unicode(v)] for a string or [None]. *)
Definition unicode_opt (o : option string) : string :=
  match o with Some s => s | None => "None" end.

(** [a + b] where [a] is a string: [b] has to be one. *)
Definition as_str (v : json) : M string :=
  match v with
  | JStr s => ret s
  | _ => raise (new_exn TypeError "cannot concatenate 'str' and other objects")
  end.

(** The names bound in the module namespace of [deposit/protocol.py] once
    it is loaded: its imports (l. 24-30) and its class statements. *)
Definition module_globals : list string :=
  ["unicode_literals"; "traceback"; "settings"; "__"; "BareOaiRecord";
   "BaseMetadataForm"; "DEPOSIT_STATUS_CHOICES";
   "DepositError"; "DepositResult"; "RepositoryProtocol"].

(** The names of [__builtin__] the module refers to ([reverse] is not a
    builtin). *)
Definition builtins : list string :=
  ["object"; "Exception"; "ValueError"; "NotImplemented"; "unicode"; "str"; "type"].

(** Loading a global name: the module namespace, then the builtins. *)
Definition load_global (globals : list string) (name : string) : M unit :=
  if existsb (String.eqb name) (globals ++ builtins)%list then ret tt
  else raise (new_exn NameError ("global name '" ++ name ++ "' is not defined")).

(** ** [deposit/protocol.py] *)

Section Protocol.

Variable env : environment.

(** [DepositResult.__init__]. *)
Definition DepositResult_init
  (identifier splash_url pdf_url logs : option string)
  (status : string) (message : option string) : outcome DepositResult :=
  if negb (existsb (String.eqb status) (map fst (DEPOSIT_STATUS_CHOICES env)))
  then Raise (new_exn ValueError ("invalid status " ++ status))
  else Ok {| identifier := identifier; splash_url := splash_url;
             pdf_url := pdf_url; logs := logs; status := status;
             message := message; oairecord := None; additional_info := [] |}.

(** [RepositoryProtocol.__init__]; the OSF attributes are filled by the
    subclass. *)
Definition RepositoryProtocol_init (repo : Repository) : protocol :=
  {| repository := repo; _logs := None; paper := None; user := None;
     api_url := None; no_license_id := ""; license_id := None;
     pub_date := None; headers := None; node_id := None;
     storage_url := None |}.

(** [RepositoryProtocol.init_deposit]. *)
Definition init_deposit (pa : Paper) (u : User) : M bool :=
  modify (set_paper_user pa u) ;;;
  modify (set_logs (Some "")) ;;;
  ret true.

(** [RepositoryProtocol.submit_deposit]: calling [NotImplemented] is a
    TypeError. *)
Definition abstract_submit_deposit : M DepositResult :=
  raise (new_exn TypeError "'NotImplementedType' object is not callable").

(** [RepositoryProtocol.log]. *)
Definition log (line : string) : M unit :=
  l <- gets _logs ;;
  match l with
  | Some l => modify (set_logs (Some (l ++ line ++ nl)))
  | None =>
      raise (new_exn TypeError "unsupported operand type(s) for +=: 'NoneType' and 'unicode'")
  end.

(** [RepositoryProtocol.log_request]. *)
Definition log_request (r : response) (expected_status_code : Z)
  (error_msg : string) : M unit :=
  log ("--- Request to " ++ resp_url r ++ nl) ;;;
  log ("Status code: " ++ PyStr.of_Z (status_code r) ++ " (expected "
       ++ PyStr.of_Z expected_status_code ++ ")" ++ nl) ;;;
  if negb (Z.eqb (status_code r) expected_status_code) then
    log "Server response:" ;;;
    log (text r) ;;;
    log "" ;;;
    raise (new_exn DepositError error_msg)
  else ret tt.

(** [settings.DEPOSIT_NOTIFICATION_CALLBACK(payload)]. *)
Definition notify (p : Payload) : M unit :=
  emit (Notify p) ;;;
  lift (DEPOSIT_NOTIFICATION_CALLBACK env p).

(** [self.paper.add_oairecord(rec)]. *)
Definition paper_add_oairecord (r : BareOaiRecord) : M BareOaiRecord :=
  pa <- attr "add_oairecord" paper ;;
  emit (AddOaiRecord r) ;;;
  lift (add_oairecord env pa r).

(** [e.args[0]]. *)
Definition args0 (e : exn) : M string :=
  match exn_args e with
  | a :: _ => ret a
  | [] => raise (new_exn IndexError "tuple index out of range")
  end.

Definition GENERIC_MESSAGE : string :=
  "Failed to connect to the repository. Please try again later.".

(** [str(e)] (l. 181).  The text of [e] is unicode, as the messages of
    modules that import [unicode_literals] are, and [str] encodes it with
    the ascii codec: a character outside ASCII raises UnicodeEncodeError. *)
Definition str_of_exn (e : exn) : M string :=
  if PyStr.is_ascii (exn_str e) then ret (exn_str e)
  else raise (new_exn UnicodeEncodeError
                "'ascii' codec can't encode character: ordinal not in range(128)").

(** [self.log(line)] for a byte string [line] (l. 182, 189): [line+'\n']
    decodes [line] with the ascii codec, before anything is added to
    [_logs]. *)
Definition log_bytes (line : string) : M unit :=
  if PyStr.is_ascii line then log line
  else raise (new_exn UnicodeDecodeError
                "'ascii' codec can't decode byte: ordinal not in range(128)").

(** The [try] statement of [submit_deposit_wrapper] (l. 157-183). *)
Definition wrapper_try (submit_deposit : M DepositResult)
  (notification_payload : Payload) : M DepositResult :=
  try_except
    (result <- submit_deposit ;;
     l <- gets _logs ;;
     let result := set_result_logs result l in
     (* Create the corresponding OAI record *)
     result <-
       (if PyStr.truthy (splash_url result) then
          repo <- gets repository ;;
          let rec :=
            {| rec_source := oaisource repo;
               rec_identifier :=
                 "deposition:" ++ PyStr.of_Z (repository_id repo) ++ ":"
                 ++ unicode_opt (identifier result);
               rec_splash_url := splash_url result;
               rec_pdf_url := pdf_url result |} in
          attached <- paper_add_oairecord rec ;;
          ret (set_result_oairecord result (Some attached))
        else ret result) ;;
     notify notification_payload ;;;
     ret result)
    (fun e =>
       if is_DepositError e then Some (
         a0 <- args0 e ;;
         log ("Message: " ++ a0) ;;;
         let notification_payload :=
           {| payload_name := payload_name notification_payload;
              payload_repo := payload_repo notification_payload;
              payload_paperurl :=
                payload_paperurl notification_payload ++ " " ++ a0 |} in
         notify notification_payload ;;;
         l <- gets _logs ;;
         lift (DepositResult_init None None None l "failed" (Some a0)))
       else if is_Exception e then Some (
         log "Caught exception:" ;;;
         text <- str_of_exn e ;;
         log (type_repr e ++ ": " ++ text ++ "") ;;;
         log_bytes (format_exc env e) ;;;
         l <- gets _logs ;;
         lift (DepositResult_init None None None l "failed"
                 (Some (ugettext env GENERIC_MESSAGE))))
       else None).

(** [RepositoryProtocol.submit_deposit_wrapper], run in a module
    namespace that binds [globals]. *)
Definition submit_deposit_wrapper_in (globals : list string)
  (submit_deposit : M DepositResult) : M DepositResult :=
  (* Small hack to get notifications *)
  u <- attr "name" user ;;
  let name := user_name u in
  let name :=
    if PyStr.nonempty (first_name u) && PyStr.nonempty (last_name u)
    then first_name u ++ " " ++ last_name u
    else name in
  repo <- gets repository ;;
  load_global globals "reverse" ;;;
  pa <- attr "pk" paper ;;
  paperurl <- lift (reverse env "paper" [pk pa]) ;;
  let notification_payload :=
    {| payload_name := name;
       payload_repo := repository_name repo;
       payload_paperurl := paperurl |} in
  wrapper_try submit_deposit notification_payload.

(** [RepositoryProtocol.submit_deposit_wrapper] as the module has it. *)
Definition submit_deposit_wrapper (submit_deposit : M DepositResult)
  : M DepositResult :=
  submit_deposit_wrapper_in module_globals submit_deposit.

End Protocol.

(** ** [deposit/osf/protocol.py] *)

Section OSF.

Variable env : environment.

Definition SANDBOX_API : string := "https://test-api.osf.io/".

(** [self.api_url == "https://test-api.osf.io/"]. *)
Definition is_sandbox (api : option string) : bool :=
  match api with Some a => String.eqb a SANDBOX_API | None => false end.

(** [OSFProtocol.__init__]. *)
Definition OSFProtocol_init (repo : Repository) : protocol :=
  let p := RepositoryProtocol_init repo in
  {| repository := repository p; _logs := _logs p; paper := paper p;
     user := user p;
     (* We let the interface define another API endpoint (sandbox...). *)
     api_url := endpoint repo;
     no_license_id :=
       if is_sandbox (endpoint repo) then "58fd62fcda3e2400012ca5cc"
       else "563c1cf88c5e4a3877f9e965";
     license_id := None; pub_date := None; headers := None;
     node_id := None; storage_url := None |}.

(** [OSFProtocol.init_deposit]: "Refuse deposit when the paper is already
    on OSF." *)
Definition OSF_init_deposit (pa : Paper) (u : User) : M bool :=
  init_deposit pa u ;;;
  ret true.

(** [OSFProtocol.get_primary_data]. *)
Definition get_primary_data (form : Form) : M (Paper * string) :=
  pa <- attr "json" paper ;;
  let abstract := form_abstract form in
  ret (pa, abstract).

(** [OSFProtocol.get_key_data] for the key ['doi']. *)
Fixpoint get_key_data_doi (records : list BibRecord) : option string :=
  match records with
  | [] => None
  | item :: rest =>
      if PyStr.truthy (doi item) then doi item else get_key_data_doi rest
  end.

(** [OSFProtocol.translate_author], [goal="optional"]. *)
Definition translate_author (a : Author) : string :=
  author_first a ++ " " ++ author_last a.

(** [OSFProtocol.translate_author], [goal="contrib"]. *)
Definition translate_author_contrib (a : Author) : json :=
  JDict [("data", JDict [("type", JStr "contributors");
                         ("attributes",
                           JDict [("full_name", JStr (translate_author a))])])].

(** An author as [paper.json()] has it. *)
Definition author_json (a : Author) : json :=
  JDict [("name", JDict [("first", JStr (author_first a));
                         ("last", JStr (author_last a))])].

(** [OSFProtocol.translate_links]. *)
Definition translate_links (node_links : json) : M json :=
  l <- lift (getitem node_links "links") ;;
  lift (getitem l "upload").

(** [a + b] where [a] is an attribute that may hold [None]. *)
Definition concat_attr (a : option string) (b : string) : M string :=
  match a with
  | Some a => ret (a ++ b)
  | None =>
      raise (new_exn TypeError "unsupported operand type(s) for +: 'NoneType' and 'unicode'")
  end.

(** [r.json()]. *)
Definition response_json (r : response) : M json :=
  match json_body r with
  | Some j => ret j
  | None => raise (new_exn ValueError "No JSON object could be decoded")
  end.

(** A call of the [requests] library. *)
Definition send (m : http_method) (url : string) (data : body)
  (h : list (string * string)) : M response :=
  let rq := {| req_method := m; req_url := url; req_data := data;
               req_headers := h |} in
  past <- history ;;
  emit (Http rq) ;;;
  lift (requests_send env past rq).

Fixpoint for_each {A} (l : list A) (f : A -> M unit) : M unit :=
  match l with
  | [] => ret tt
  | a :: l' => f a ;;; for_each l' f
  end.

Fixpoint map_M {A B} (f : A -> M B) (l : list A) : M (list B) :=
  match l with
  | [] => ret []
  | a :: l' => b <- f a ;; bs <- map_M f l' ;; ret (b :: bs)
  end.

Fixpoint chars (s : string) : list json :=
  match s with
  | EmptyString => []
  | String c s' => JStr (String c EmptyString) :: chars s'
  end.

(** [hash(v)] succeeds: lists and dicts are unhashable. *)
Definition hashable (v : json) : bool :=
  match v with
  | JList _ | JDict _ => false
  | _ => true
  end.

(** One element of the set comprehension
    [{self.translate_links(entry) for entry in osf_links}]. *)
Definition link_of_entry (entry : json) : M json :=
  l <- translate_links entry ;;
  if hashable l then ret l
  else raise (new_exn TypeError "unhashable type").

(** [for entry in v]. *)
Definition iterate (v : json) : M (list json) :=
  match v with
  | JList l => ret l
  | JDict l => ret (map (fun kv => JStr (fst kv)) l)
  | JStr s => ret (chars s)
  | _ => raise (new_exn TypeError "object is not iterable")
  end.

(** [v[1:]]. *)
Definition slice_from_1 (v : json) : M json :=
  match v with
  | JStr s => ret (JStr (PyStr.drop 1 s))
  | JList l => ret (JList (tl l))
  | _ => raise (new_exn TypeError "object has no attribute '__getitem__'")
  end.

Definition min_node_structure (title abstract : string) (tags : list string)
  : json :=
  JDict [("data",
    JDict [("type", JStr "nodes");
           ("attributes",
             JDict [("title", JStr title);
                    ("category", JStr "project");
                    ("description", JStr abstract);
                    ("tags", JList (map JStr tags))])])].

(** [OSFProtocol.create_node]. *)
Definition create_node (abstract : string) (tags : list string)
  (authors : list Author) : M unit :=
  pa <- attr "title" paper ;;
  let structure := min_node_structure (title pa) abstract tags in
  log "### Creating the metadata" ;;;
  log (dumps_indent4 env structure ++ "") ;;;
  log (dumps_indent4 env (JList (map author_json authors)) ++ "") ;;;
  api <- gets api_url ;;
  request_url <- concat_attr api "v2/nodes/" ;;
  h <- attr "headers" headers ;;
  osf_response <- send POST request_url (Text (dumps env structure)) h ;;
  log_request osf_response 201
    (ugettext env "Unable to create a project on OSF.") ;;;
  osf_response <- response_json osf_response ;;
  d <- lift (getitem osf_response "data") ;;
  i <- lift (getitem d "id") ;;
  modify (set_node_id i).

(** [OSFProtocol.get_newnode_osf_storage]. *)
Definition get_newnode_osf_storage : M json :=
  api <- gets api_url ;;
  n <- attr "node_id" node_id ;;
  u <- concat_attr api ("v2/nodes/" ++ unicode_json env n ++ "/files/") ;;
  modify (set_storage_url u) ;;;
  u <- attr "storage_url" storage_url ;;
  h <- attr "headers" headers ;;
  osf_storage_data <- send GET u NoBody h ;;
  log_request osf_storage_data 200
    (ugettext env "Unable to authenticate to OSF.") ;;;
  response_json osf_storage_data.

(** [OSFProtocol.add_contributors]. *)
Definition add_contributors (authors : list Author) : M unit :=
  api <- gets api_url ;;
  u <- concat_attr api "v2/nodes/" ;;
  n <- attr "node_id" node_id ;;
  n <- as_str n ;;
  let contrib_url := u ++ n ++ "/contributors/" in
  for_each authors (fun author =>
    let contrib := translate_author_contrib author in
    h <- attr "headers" headers ;;
    contrib_response <- send POST contrib_url (Text (dumps env contrib)) h ;;
    log_request contrib_response 201
      (ugettext env "Unable to add contributors.")).

(** The block under ["attributes"] of the two license payloads. *)
Definition license_block (license_id no_license_id : string)
  (year : option string) (authors_list : list string) : M json :=
  if String.eqb license_id no_license_id then
    match year with
    | Some y =>
        ret (JDict [("year", JStr y);
                    ("copyright_holders", JList (map JStr authors_list))])
    | None => raise (new_exn AttributeError "pub_date")
    end
  else ret (JDict []).

Definition license_relationships (license_id : string) : json :=
  JDict [("license",
    JDict [("data", JDict [("type", JStr "licenses");
                           ("id", JStr license_id)])])].

(** The dict [license_structure] of [create_license] once its
    ["attributes"] are set. *)
Definition license_structure (node : json) (license_id : string)
  (node_license : json) : json :=
  JDict [("data",
    JDict [("type", JStr "nodes");
           ("id", node);
           ("attributes", JDict [("node_license", node_license)]);
           ("relationships", license_relationships license_id)])].

(** [OSFProtocol.create_license]. *)
Definition create_license (authors : list Author) : M unit :=
  api <- gets api_url ;;
  u <- concat_attr api "v2/nodes/" ;;
  n <- attr "node_id" node_id ;;
  ns <- as_str n ;;
  let node_url := u ++ ns ++ "/" in
  license_url <- concat_attr api "v2/licenses/" ;;
  lic <- attr "license_id" license_id ;;
  let license_url := license_url ++ (lic ++ "/") in
  let authors_list := map translate_author authors in
  no_lic <- gets no_license_id ;;
  year <- gets pub_date ;;
  block <- license_block lic no_lic year authors_list ;;
  let structure := license_structure n lic block in
  h <- attr "headers" headers ;;
  license_req <- send PATCH node_url (Text (dumps env structure)) h ;;
  log_request license_req 200 (ugettext env "Unable to update license.") ;;;
  log "### Updating License" ;;;
  log (PyStr.of_Z (status_code license_req)) ;;;
  log (text license_req) ;;;
  log "==========" ;;;
  log ("self.license_id: " ++ lic ++ "  | " ++
       "self.no_license_id: " ++ no_lic) ;;;
  log "==========".

Definition json_of_opt (o : option string) : json :=
  match o with Some s => JStr s | None => JNull end.

Definition min_preprint_structure (paper_doi : option string)
  (node pf_path : json) : json :=
  JDict [("data",
    JDict [("attributes", JDict [("doi", json_of_opt paper_doi)]);
           ("relationships",
             JDict [("node",
                      JDict [("data", JDict [("type", JStr "nodes");
                                             ("id", node)])]);
                    ("primary_file",
                      JDict [("data", JDict [("type", JStr "primary_files");
                                             ("id", pf_path)])]);
                    ("provider",
                      JDict [("data", JDict [("type", JStr "providers");
                                             ("id", JStr "osf")])])])])].

(** [OSFProtocol.create_preprint]. *)
Definition create_preprint (pf_path : json) (records : list BibRecord)
  : M json :=
  api <- gets api_url ;;
  preprint_node_url <- concat_attr api "v2/preprints/" ;;
  let paper_doi := get_key_data_doi records in
  n <- attr "node_id" node_id ;;
  let structure := min_preprint_structure paper_doi n pf_path in
  log "### Creating Preprint" ;;;
  h <- attr "headers" headers ;;
  osf_response <- send POST preprint_node_url (Text (dumps env structure)) h ;;
  log_request osf_response 201
    (ugettext env "Unable to create the preprint.") ;;;
  log (PyStr.of_Z (status_code osf_response)) ;;;
  response_json osf_response.

(** The dict [updated_preprint_struc] of [update_preprint_license] once
    its ["attributes"] are set. *)
Definition updated_preprint_struc (preprint_id : json) (license_id : string)
  (license_record : json) : json :=
  JDict [("data",
    JDict [("type", JStr "nodes");
           ("id", preprint_id);
           ("attributes", JDict [("license_record", license_record)]);
           ("relationships", license_relationships license_id)])].

(** [OSFProtocol.update_preprint_license]. *)
Definition update_preprint_license (authors : list Author)
  (preprint_id : json) : M unit :=
  let authors_list := map translate_author authors in
  api <- gets api_url ;;
  preprint_node_url <-
    concat_attr api ("v2/preprints/" ++ unicode_json env preprint_id ++ "/") ;;
  lic <- attr "license_id" license_id ;;
  no_lic <- gets no_license_id ;;
  year <- gets pub_date ;;
  block <- license_block lic no_lic year authors_list ;;
  let structure := updated_preprint_struc preprint_id lic block in
  log "### Updating the Preprint License" ;;;
  h <- attr "headers" headers ;;
  license_req <- send PATCH preprint_node_url (Text (dumps env structure)) h ;;
  log_request license_req 200
    (ugettext env "Unable to update the Preprint License.") ;;;
  log (PyStr.of_Z (status_code license_req)) ;;;
  log (text license_req).

(** [OSFProtocol.submit_deposit], the main method. *)
Definition submit_deposit (pdf : string) (form : Form) : M DepositResult :=
  api <- gets api_url ;;
  if negb (PyStr.truthy api) then
    raise (new_exn DepositError (ugettext env "No Repository endpoint provided."))
  else
  repo <- gets repository ;;
  match api_key repo with
  | None => raise (new_exn DepositError (ugettext env "No OSF token provided."))
  | Some api_key =>
  modify (set_license_id (form_license form)) ;;;
  pa_abstract <- get_primary_data form ;;
  let pa := fst pa_abstract in
  let abstract := snd pa_abstract in
  let authors := authors pa in
  let records := records pa in
  modify (set_pub_date (PyStr.drop_last 6 (date pa))) ;;;
  let tags := create_tags form in
  deposit_result <- lift (DepositResult_init env None None None None "published" None) ;;
  (* To connect to the API. *)
  modify (set_headers [("Authorization", "Bearer " ++ api_key);
                       ("Content-Type", "application/vnd.api+json")]) ;;;
  (* Creating the metadata. *)
  create_node abstract tags authors ;;;
  log "### Creating a new depository" ;;;
  osf_storage_data <- get_newnode_osf_storage ;;
  osf_links <- lift (getitem osf_storage_data "data") ;;
  entries <- iterate osf_links ;;
  links <- map_M link_of_entry entries ;;
  let osf_upload_link := str_list_set env links in
  let osf_upload_link :=
    PyStr.replace "']" "" (PyStr.replace "[u'" "" osf_upload_link) in
  log "### Uploading the PDF" ;;;
  let upload_url_suffix := "?kind=file&name=article.pdf" in
  let upload_url := osf_upload_link ++ upload_url_suffix in
  emit (OpenFile pdf) ;;;
  data <- lift (open_file env pdf) ;;
  h <- attr "headers" headers ;;
  primary_file_data <- send PUT upload_url (FileContent data) h ;;
  log_request primary_file_data 201
    (ugettext env "Unable to upload the PDF file.") ;;;
  primary_file_data <- response_json primary_file_data ;;
  d <- lift (getitem primary_file_data "data") ;;
  a <- lift (getitem d "attributes") ;;
  path <- lift (getitem a "path") ;;
  pf_path <- slice_from_1 path ;;
  add_contributors authors ;;;
  create_license authors ;;;
  (* Create the Preprint. *)
  osf_preprint_response <- create_preprint pf_path records ;;
  d <- lift (getitem osf_preprint_response "data") ;;
  preprint_id <- lift (getitem d "id") ;;
  api <- gets api_url ;;
  pid <- as_str preprint_id ;;
  let preprint_public_url :=
    if is_sandbox api then "https://test.osf.io/" ++ pid
    else "https://osf.io" ++ pid in
  let preprint_public_pdf := preprint_public_url ++ "/download" in
  update_preprint_license authors preprint_id ;;;
  api <- gets api_url ;;
  n <- attr "node_id" node_id ;;
  ns <- as_str n ;;
  let project_public_url :=
    if is_sandbox api then "https://test.osf.io/" ++ ns
    else "https://osf.io/" ++ ns in
  log "### FINAL DEBUG" ;;;
  log project_public_url ;;;
  log preprint_public_url ;;;
  log preprint_public_pdf ;;;
  (* deposit_result.identifier = projet_public_url
     deposit_result.splash_url = preprint_public_url
     deposit_result.pdf_url = preprint_public_pdf *)
  ret deposit_result
  end.

End OSF.

(** ** What the properties below speak about *)

(** [t] is [p] without its surrounding whitespace. *)
Definition trimmed (p t : string) : Prop :=
  exists l r,
    p = l ++ t ++ r
    /\ PyStr.all PyStr.isspace l = true
    /\ PyStr.all PyStr.isspace r = true
    /\ (forall c, PyStr.first t = Some c -> PyStr.isspace c = false)
    /\ (forall c, PyStr.last t = Some c -> PyStr.isspace c = false).

(** The notifications and the record attachments of a journal. *)
Fixpoint notifications (j : list event) : list Payload :=
  match j with
  | [] => []
  | Notify p :: j' => p :: notifications j'
  | _ :: j' => notifications j'
  end.

Fixpoint attachments (j : list event) : list BareOaiRecord :=
  match j with
  | [] => []
  | AddOaiRecord r :: j' => r :: attachments j'
  | _ :: j' => attachments j'
  end.

Fixpoint sent (j : list event) : list request :=
  match j with
  | [] => []
  | Http rq :: j' => rq :: sent j'
  | _ :: j' => sent j'
  end.

(** The license block the OSF API receives when the "no license" entry is
    selected: the year and the authors' full names. *)
Definition populated_block (year : string) (authors : list Author) : json :=
  JDict [("year", JStr year);
         ("copyright_holders",
           JList (map (fun a => JStr (author_first a ++ " " ++ author_last a))
                      authors))].

(** ** A deposit on the OSF sandbox, used to exercise the model *)

Module Scenario.

Definition quote (s : string) : string :=
  String (ascii_of_nat 34) s ++ String (ascii_of_nat 34) EmptyString.

(** A plain JSON printer standing for [json.dumps]. *)
Fixpoint render (j : json) : string :=
  match j with
  | JNull => "null"
  | JBool true => "true"
  | JBool false => "false"
  | JInt z => PyStr.of_Z z
  | JStr s => quote s
  | JList l =>
      "[" ++ (fix items (l : list json) : string :=
                match l with
                | [] => ""
                | x :: l' =>
                    render x ++ match l' with [] => "" | _ => ", " ++ items l' end
                end) l ++ "]"
  | JDict l =>
      "{" ++ (fix items (l : list (string * json)) : string :=
                match l with
                | [] => ""
                | (k, v) :: l' =>
                    quote k ++ ": " ++ render v
                    ++ match l' with [] => "" | _ => ", " ++ items l' end
                end) l ++ "}"
  end.

Definition reply (url : string) (code : Z) (j : json) : response :=
  {| resp_url := url; status_code := code; text := render j;
     json_body := Some j |}.

Definition upload_link : string :=
  "https://files.osf.io/v1/resources/q7k2m/providers/osfstorage/".

(** The OSF server: the n-th call gets the n-th reply, each with the
    status code the backend expects. *)
Definition server (past : list event) (rq : request) : outcome response :=
  match List.length (sent past) with
  | 0 => Ok (reply (req_url rq) 201 (JDict [("data", JDict [("id", JStr "q7k2m")])]))
  | 1 => Ok (reply (req_url rq) 200
               (JDict [("data",
                 JList [JDict [("links", JDict [("upload", JStr upload_link)])]])]))
  | 2 => Ok (reply (req_url rq) 201
               (JDict [("data",
                 JDict [("attributes", JDict [("path", JStr "/5b1f0c")])])]))
  | 3 | 4 | 5 => Ok (reply (req_url rq) 201 (JDict []))
  | 6 => Ok (reply (req_url rq) 200 (JDict []))
  | 7 => Ok (reply (req_url rq) 201 (JDict [("data", JDict [("id", JStr "w3xzp")])]))
  | 8 => Ok (reply (req_url rq) 200 (JDict []))
  | _ => Raise (new_exn (OtherException "requests.exceptions.ConnectionError")
                  "no more replies")
  end.

(** The same server, except that the first contributor POST (the fourth
    call) is refused. *)
Definition server_refusing_contributor (past : list event) (rq : request)
  : outcome response :=
  match List.length (sent past) with
  | 3 => Ok (reply (req_url rq) 400 (JDict []))
  | _ => server past rq
  end.

Definition env_with
  (callback : Payload -> outcome unit)
  (srv : list event -> request -> outcome response) : environment :=
  {| DEPOSIT_STATUS_CHOICES :=
       [("pending", "Pending publication"); ("published", "Published");
        ("failed", "Failed")];
     ugettext := fun s => s;
     (* papers/urls.py: url(r'^paper/(?P<pk>\d+)/$', ..., name='paper') *)
     reverse := fun name args =>
       match args with
       | [k] => if String.eqb name "paper"
                then Ok ("/paper/" ++ PyStr.of_Z k ++ "/")
                else Raise (new_exn (OtherException "django.core.urlresolvers.NoReverseMatch") name)
       | _ => Raise (new_exn (OtherException "django.core.urlresolvers.NoReverseMatch") name)
       end;
     DEPOSIT_NOTIFICATION_CALLBACK := callback;
     add_oairecord := fun _ r => Ok r;
     format_exc := fun e =>
       "Traceback (most recent call last):" ++ nl ++ exn_str e ++ nl;
     dumps := render;
     dumps_indent4 := render;
     requests_send := srv;
     open_file := fun _ => Ok "%PDF-1.4";
     str_of_json := render;
     str_list_set := fun l =>
       match l with
       | [JStr u] => "[u'" ++ u ++ "']"
       | _ => "[]"
       end |}.

Definition env : environment := env_with (fun _ => Ok tt) server.

Definition repo : Repository :=
  {| repository_name := "OSF sandbox"; repository_id := 7;
     oaisource := "osf"; endpoint := Some SANDBOX_API;
     api_key := Some "s3cr3t" |}.

Definition the_paper : Paper :=
  {| pk := 42; title := "On deposits";
     authors := [ {| author_first := "Ada"; author_last := "Lovelace" |};
                  {| author_first := "Alan"; author_last := "Turing" |};
                  {| author_first := "Grace"; author_last := "Hopper" |} ];
     records := [ {| doi := None |}; {| doi := Some "10.1000/182" |} ];
     date := "2017-05-12" |}.

Definition the_user : User :=
  {| user_name := "ada"; first_name := "Ada"; last_name := "Lovelace" |}.

Definition form_with (license : string) : Form :=
  {| form_abstract := "An abstract."; form_tags := "a, b ,, c";
     form_license := license |}.

Definition cc_by : string := "563c1cf88c5e4a3877f9e96a".

(** The state after [OSFProtocol(repo)] and [init_deposit(paper, user)]. *)
Definition ready : state :=
  snd (OSF_init_deposit the_paper the_user
         {| self := OSFProtocol_init repo; journal := [] |}).

(** [submit_deposit] stand-ins for the contract's wrapper. *)
Definition returning (r : DepositResult) : M DepositResult := ret r.

Definition raising (e : exn) : M DepositResult := raise e.

(** A notification callback that fails. *)
Definition failing_callback (_ : Payload) : outcome unit :=
  Raise (new_exn (OtherException "smtplib.SMTPException") "mail server down").

(** The module namespace with the URL resolver imported. *)
Definition bound_globals : list string := "reverse" :: module_globals.

Definition create_project_failed : exn :=
  new_exn DepositError "Unable to create a project on OSF.".

Definition missing_key : exn :=
  {| exn_class_of := KeyError; exn_args := ["data"]; exn_str := "'data'" |}.

Definition published (id splash pdf : option string) : DepositResult :=
  {| identifier := id; splash_url := splash; pdf_url := pdf; logs := None;
     status := "published"; message := None; oairecord := None;
     additional_info := [] |}.

End Scenario.

(** ** A program logic for [M]

    [hoare pre m allowed post]: run from a state whose instance satisfies
    [pre], [m] only adds events that are [allowed] to the journal, and when
    it returns a value, value and instance satisfy [post]. *)

Definition hoare {A} (pre : protocol -> Prop) (m : M A)
  (allowed : event -> Prop) (post : A -> protocol -> Prop) : Prop :=
  forall st, pre (self st) ->
    (exists evs, journal (snd (m st)) = (journal st ++ evs)%list
                 /\ Forall allowed evs)
    /\ (forall a, fst (m st) = Ok a -> post a (self (snd (m st)))).

(** A step that keeps an invariant [inv] of the instance, and returns a
    value that satisfies [R]. *)
Definition keeps {A} (allowed : event -> Prop) (inv : protocol -> Prop)
  (m : M A) (R : A -> Prop) : Prop :=
  hoare inv m allowed (fun a p => inv p /\ R a).

(** ** The license blocks *)

Definition licensed (lic y nl : string) (p : protocol) : Prop :=
  license_id p = Some lic /\ pub_date p = Some y /\ no_license_id p = nl.

(** The block is the populated one when the selected license is the
    sentinel, and empty otherwise. *)
Definition selected_block (lic y nl : string) (authors : list Author)
  (block : json) : Prop :=
  (lic = nl -> block = populated_block y authors)
  /\ (lic <> nl -> block = JDict []).

(** A PATCH request that updates the license of a node or of a preprint. *)
Definition license_update (env : environment) (lic y nl : string)
  (authors : list Author) (rq : request) : Prop :=
  exists block,
    selected_block lic y nl authors block
    /\ ((exists api n,
           req_url rq = api ++ "v2/nodes/" ++ n ++ "/"
           /\ req_data rq = Text (dumps env (license_structure (JStr n) lic block)))
        \/ (exists api preprint_id,
              req_url rq = api ++ "v2/preprints/" ++ unicode_json env preprint_id ++ "/"
              /\ req_data rq
                 = Text (dumps env (updated_preprint_struc preprint_id lic block)))).

Definition license_checked (env : environment) (lic y nl : string)
  (authors : list Author) (ev : event) : Prop :=
  match ev with
  | Http rq => req_method rq = PATCH -> license_update env lic y nl authors rq
  | _ => True
  end.

(** *** The events of a deposit, one by one

    [unfolds pre m pattern post]: run from a state whose instance satisfies
    [pre], [m] adds to the journal events that fit, one by one and in
    order, the descriptions of [pattern]: all of them when it returns a
    value (value and instance then satisfy [post]), and those of a prefix
    of [pattern] when it raises. *)
Definition fits (pattern : list (event -> Prop)) (evs : list event) : Prop :=
  Forall2 (fun (described : event -> Prop) ev => described ev) pattern evs.

Definition unfolds {A} (pre : protocol -> Prop) (m : M A)
  (pattern : list (event -> Prop)) (post : A -> protocol -> Prop) : Prop :=
  forall st, pre (self st) ->
    exists evs,
      journal (snd (m st)) = (journal st ++ evs)%list
      /\ match fst (m st) with
         | Ok a => fits pattern evs /\ post a (self (snd (m st)))
         | Raise _ =>
             exists done rest,
               pattern = (done ++ rest)%list /\ fits done evs
         end.

(** A request sent with the given method. *)
Definition is_request (m : http_method) (ev : event) : Prop :=
  exists rq, ev = Http rq /\ req_method rq = m.

Definition is_opening (pdf : string) (ev : event) : Prop := ev = OpenFile pdf.

(** The PATCH of the node, with the selected [node_license] block. *)
Definition node_license_update (env : environment) (lic y nl : string)
  (authors : list Author) (ev : event) : Prop :=
  exists api n h block,
    selected_block lic y nl authors block
    /\ ev = Http {| req_method := PATCH;
                    req_url := api ++ "v2/nodes/" ++ n ++ "/";
                    req_data :=
                      Text (dumps env (license_structure (JStr n) lic block));
                    req_headers := h |}.

(** The PATCH of the preprint, with the selected [license_record] block. *)
Definition preprint_license_update (env : environment) (lic y nl : string)
  (authors : list Author) (ev : event) : Prop :=
  exists api preprint_id h block,
    selected_block lic y nl authors block
    /\ ev = Http {| req_method := PATCH;
                    req_url := api ++ "v2/preprints/"
                               ++ unicode_json env preprint_id ++ "/";
                    req_data :=
                      Text (dumps env
                              (updated_preprint_struc preprint_id lic block));
                    req_headers := h |}.

(** The events of a complete OSF deposit: the node, its storage, the file
    and its upload, one request per author, the license of the node, the
    preprint, the license of the preprint. *)
Definition deposit_pattern (env : environment) (pdf lic y nl : string)
  (authors : list Author) : list (event -> Prop) :=
  ([is_request POST; is_request GET; is_opening pdf; is_request PUT]
   ++ repeat (is_request POST) (List.length authors)
   ++ [node_license_update env lic y nl authors;
       is_request POST;
       preprint_license_update env lic y nl authors])%list.

(** ** What the further properties speak about *)

(** The two lines [log_request] always writes, and the three it adds
    when the status code is not the expected one. *)
Definition request_lines (r : response) (expected : Z) : string :=
  "--- Request to " ++ resp_url r ++ nl ++ nl
  ++ "Status code: " ++ PyStr.of_Z (status_code r)
  ++ " (expected " ++ PyStr.of_Z expected ++ ")" ++ nl ++ nl.

Definition refusal_lines (r : response) : string :=
  "Server response:" ++ nl ++ text r ++ nl ++ "" ++ nl.

(** The request [create_node] sends. *)
Definition create_node_request (env : environment) (api : string)
  (h : list (string * string)) (title abstract : string) (tags : list string)
  : request :=
  {| req_method := POST; req_url := api ++ "v2/nodes/";
     req_data := Text (dumps env (min_node_structure title abstract tags));
     req_headers := h |}.

(** ** Ordered traces

    [traces view inv m full R]: run from a state whose instance satisfies
    [inv], [m] keeps [inv]; seen through [view], the events it adds to the
    journal are exactly [full] when it returns a value (which then
    satisfies [R]), and a prefix of [full] when it raises. *)
Definition traces {A L} (view : event -> list L) (inv : protocol -> Prop)
  (m : M A) (full : list L) (R : A -> Prop) : Prop :=
  forall st, inv (self st) ->
    inv (self (snd (m st)))
    /\ exists evs,
         journal (snd (m st)) = (journal st ++ evs)%list
         /\ match fst (m st) with
            | Ok a => flat_map view evs = full /\ R a
            | Raise _ => exists rest, full = (flat_map view evs ++ rest)%list
            end.

(** What an event is, without its content. *)
Inductive step :=
| Req (m : http_method)
| Opened
| Attached
| Notified.

Definition step_of (ev : event) : step :=
  match ev with
  | Http rq => Req (req_method rq)
  | OpenFile _ => Opened
  | AddOaiRecord _ => Attached
  | Notify _ => Notified
  end.

Definition step_view (ev : event) : list step := [step_of ev].

(** The requests among the events. *)
Definition request_view (ev : event) : list request :=
  match ev with
  | Http rq => [rq]
  | _ => []
  end.

(** The steps of a complete OSF deposit of a paper with [n] authors. *)
Definition deposit_steps (n : nat) : list step :=
  Req POST :: Req GET :: Opened :: Req PUT
  :: (repeat (Req POST) n ++ [Req PATCH; Req POST; Req PATCH])%list.

(** The request [add_contributors] sends for one author. *)
Definition contributor_request (env : environment) (api n : string)
  (h : list (string * string)) (a : Author) : request :=
  {| req_method := POST;
     req_url := (api ++ "v2/nodes/") ++ n ++ "/contributors/";
     req_data := Text (dumps env (translate_author_contrib a));
     req_headers := h |}.

(** The headers of an authenticated JSON:API request. *)
Definition api_headers (key : string) : list (string * string) :=
  [("Authorization", "Bearer " ++ key);
   ("Content-Type", "application/vnd.api+json")].

Definition carries (hs : list (string * string)) (ev : event) : Prop :=
  match ev with
  | Http rq => req_headers rq = hs
  | _ => True
  end.

(** ** States of the sandbox deposit, part-way *)

Module Midway.

(** As [submit_deposit] has the instance just before [create_node]:
    license, year and headers set. *)
Definition prepared : state :=
  {| self := set_headers (api_headers "s3cr3t")
               (set_pub_date "2017"
                  (set_license_id Scenario.cc_by (self Scenario.ready)));
     journal := [] |}.

(** The same, once the node exists. *)
Definition with_node : state :=
  {| self := set_node_id (JStr "q7k2m") (self prepared); journal := [] |}.

Definition node_reply : response :=
  Scenario.reply "https://test-api.osf.io/v2/nodes/" 201
    (JDict [("data", JDict [("id", JStr "q7k2m")])]).

(** A server that answers 201 to everything. *)
Definition created_env : environment :=
  Scenario.env_with (fun _ => Ok tt)
    (fun _ rq => Ok (Scenario.reply (req_url rq) 201 (JDict []))).

Definition tags_form : Form :=
  {| form_abstract := ""; form_tags := "a, b ,, c"; form_license := "" |}.

Definition ada : Payload :=
  {| payload_name := "Ada Lovelace"; payload_repo := "OSF sandbox";
     payload_paperurl := "/paper/42/" |}.

Definition deposited : DepositResult :=
  Scenario.published (Some "https://test.osf.io/q7k2m")
    (Some "https://test.osf.io/w3xzp")
    (Some "https://test.osf.io/w3xzp/download").

End Midway.

(** * Properties *)

(** ** Tag normalisation *)

Section Tags.

Variable sep : ascii.

Lemma split_not_nil (s : string) : PyStr.split sep s <> [].
Proof.
  destruct s as [|c s]; simpl; [discriminate|].
  destruct (Ascii.eqb c sep); [discriminate|].
  destruct (PyStr.split sep s); discriminate.
Qed.

Lemma join_cons (p : string) (ps : list string) :
  ps <> [] ->
  PyStr.join sep (p :: ps) = p ++ String sep (PyStr.join sep ps).
Proof. destruct ps; [congruence | reflexivity]. Qed.

Lemma join_split (s : string) : PyStr.join sep (PyStr.split sep s) = s.
Proof.
  induction s as [|c s IH]; [reflexivity|].
  simpl PyStr.split.
  destruct (Ascii.eqb c sep) eqn:E.
  - apply Ascii.eqb_eq in E; subst c.
    rewrite join_cons by apply split_not_nil.
    now rewrite IH.
  - pose proof (split_not_nil s) as N.
    destruct (PyStr.split sep s) as [|p ps]; [congruence|].
    destruct ps as [|q ps].
    + simpl in *. now rewrite IH.
    + rewrite join_cons by discriminate.
      rewrite join_cons in IH by discriminate.
      rewrite <- IH. reflexivity.
Qed.

Lemma split_no_sep (s : string) :
  Forall (fun p => PyStr.mem sep p = false) (PyStr.split sep s).
Proof.
  induction s as [|c s IH]; simpl.
  - repeat constructor.
  - destruct (Ascii.eqb c sep) eqn:E.
    + constructor; [reflexivity | exact IH].
    + destruct (PyStr.split sep s) as [|p ps].
      * repeat constructor. simpl. now rewrite E.
      * inversion IH; subst. constructor; [|assumption].
        simpl. rewrite E. assumption.
Qed.

End Tags.

Lemma lstrip_split (s : string) :
  exists l, s = l ++ PyStr.lstrip s
            /\ PyStr.all PyStr.isspace l = true
            /\ (forall c, PyStr.first (PyStr.lstrip s) = Some c ->
                          PyStr.isspace c = false).
Proof.
  induction s as [|c s (l & E & A & F)].
  - exists EmptyString. repeat split. discriminate.
  - simpl. destruct (PyStr.isspace c) eqn:W.
    + exists (String c l). simpl. rewrite W, A. repeat split; [|exact F].
      now rewrite <- E.
    + exists EmptyString. repeat split. simpl. intros d [=]. now subst.
Qed.

Lemma rstrip_split (s : string) :
  exists r, s = PyStr.rstrip s ++ r
            /\ PyStr.all PyStr.isspace r = true
            /\ (forall c, PyStr.last (PyStr.rstrip s) = Some c ->
                          PyStr.isspace c = false)
            /\ (forall c, PyStr.first (PyStr.rstrip s) = Some c ->
                          PyStr.first s = Some c).
Proof.
  induction s as [|c s (r & E & A & L & F)].
  - exists EmptyString. repeat split; discriminate.
  - simpl. destruct (PyStr.rstrip s) as [|d t] eqn:R.
    + destruct (PyStr.isspace c) eqn:W.
      * exists (String c r). simpl in *. rewrite W, A. subst s.
        repeat split; discriminate.
      * exists r. simpl in *. subst s.
        repeat split; try assumption; intros x [=]; now subst.
    + exists r. split; [rewrite E at 1; reflexivity|].
      split; [exact A|]. split.
      * intros x H. apply L. exact H.
      * intros x H. exact H.
Qed.

Lemma strip_trimmed (p : string) : trimmed p (PyStr.strip p).
Proof.
  unfold trimmed, PyStr.strip.
  destruct (lstrip_split p) as (l & El & Al & Fl).
  destruct (rstrip_split (PyStr.lstrip p)) as (r & Er & Ar & Lr & Fr).
  exists l, r. repeat split; try assumption.
  - rewrite <- Er. exact El.
  - intros c H. apply Fl, Fr, H.
Qed.

Lemma all_space_lstrip (s : string) :
  PyStr.all PyStr.isspace s = true -> PyStr.lstrip s = EmptyString.
Proof.
  induction s as [|c s IH]; simpl; [reflexivity|].
  destruct (PyStr.isspace c); simpl; [exact IH | discriminate].
Qed.

Lemma all_space_app (a b : string) :
  PyStr.all PyStr.isspace (a ++ b)
  = PyStr.all PyStr.isspace a && PyStr.all PyStr.isspace b.
Proof.
  induction a as [|c a IH]; simpl; [reflexivity|].
  now rewrite IH, andb_assoc.
Qed.

Lemma strip_nonempty (p : string) :
  PyStr.nonempty (PyStr.strip p) = negb (PyStr.all PyStr.isspace p).
Proof.
  destruct (PyStr.all PyStr.isspace p) eqn:A.
  - unfold PyStr.strip. now rewrite all_space_lstrip.
  - destruct (strip_trimmed p) as (l & r & E & Al & Ar & _).
    destruct (PyStr.strip p); [|reflexivity].
    rewrite E, all_space_app, Al in A. simpl in A. congruence.
Qed.

Lemma strip_pieces (pieces : list string) :
  Forall2 trimmed
    (filter (fun p => negb (PyStr.all PyStr.isspace p)) pieces)
    (filter PyStr.nonempty (map PyStr.strip pieces)).
Proof.
  induction pieces as [|p ps IH]; simpl; [constructor|].
  rewrite strip_nonempty.
  destruct (negb (PyStr.all PyStr.isspace p)); [|exact IH].
  constructor; [apply strip_trimmed | exact IH].
Qed.

(** C9. [create_tags] cuts the submitted tags string at its commas (the
    pieces, joined by commas, are the string, and no piece holds a comma),
    drops the pieces that are empty or whitespace only, and returns each
    remaining piece without its surrounding whitespace, in order; the
    string "a, b ,, c" yields a, b, c. *)
Theorem create_tags_normalises :
  (forall form : Form,
     exists pieces : list string,
       pieces <> []
       /\ PyStr.join comma pieces = form_tags form
       /\ Forall (fun p => PyStr.mem comma p = false) pieces
       /\ Forall2 trimmed
            (filter (fun p => negb (PyStr.all PyStr.isspace p)) pieces)
            (create_tags form)
       /\ Forall (fun t => t <> EmptyString) (create_tags form))
  /\ (forall abstract license,
        create_tags {| form_abstract := abstract; form_tags := "a, b ,, c";
                       form_license := license |} = ["a"; "b"; "c"]).
Proof.
  split; [|reflexivity].
  intros form. exists (PyStr.split comma (form_tags form)).
  split; [apply split_not_nil|].
  split; [apply join_split|].
  split; [apply split_no_sep|].
  split; [apply strip_pieces|].
  unfold create_tags. apply Forall_forall. intros t H.
  apply filter_In in H. destruct H as [_ H]. now destruct t.
Qed.

(** ** The deposit result *)

Lemma existsb_eqb_In (x : string) (l : list string) :
  existsb (String.eqb x) l = true <-> In x l.
Proof.
  rewrite existsb_exists. split.
  - intros (y & I & E). apply String.eqb_eq in E. now subst.
  - intros I. exists x. split; [exact I | apply String.eqb_refl].
Qed.

(** C7. Constructing a [DepositResult] raises (a ValueError) exactly when
    the status is not among the values of [DEPOSIT_STATUS_CHOICES]; a
    result that was constructed carries the status it was given, which is
    one of those values. *)
Theorem DepositResult_status_checked
  (env : environment) (identifier splash_url pdf_url logs : option string)
  (st : string) (message : option string) :
  let made := DepositResult_init env identifier splash_url pdf_url logs st message in
  let allowed := map fst (DEPOSIT_STATUS_CHOICES env) in
  ((exists e, made = Raise e) <-> ~ In st allowed)
  /\ (~ In st allowed ->
      made = Raise (new_exn ValueError ("invalid status " ++ st)))
  /\ (forall r, made = Ok r -> status r = st /\ In (status r) allowed).
Proof.
  cbv zeta. unfold DepositResult_init.
  destruct (existsb (String.eqb st) (map fst (DEPOSIT_STATUS_CHOICES env))) eqn:E;
    simpl.
  - apply existsb_eqb_In in E. repeat split.
    + intros (e & H). discriminate.
    + intros H. contradiction.
    + contradiction.
    + injection H as <-. reflexivity.
    + injection H as <-. exact E.
  - assert (N : ~ In st (map fst (DEPOSIT_STATUS_CHOICES env))).
    { intros I. apply existsb_eqb_In in I. congruence. }
    repeat split; try discriminate.
    + intros _. exact N.
    + intros _. eexists. reflexivity.
Qed.

(** ** Eligibility *)

(** C10. [OSFProtocol.init_deposit] answers [True] for every paper and
    every user, from every state of the instance: it is the base
    [init_deposit], which binds the paper and the user and resets the log,
    and no test of the paper is made. *)
Theorem OSF_init_deposit_always_true (pa : Paper) (u : User) (st : state) :
  fst (OSF_init_deposit pa u st) = Ok true
  /\ OSF_init_deposit pa u st = init_deposit pa u st
  /\ paper (self (snd (OSF_init_deposit pa u st))) = Some pa
  /\ user (self (snd (OSF_init_deposit pa u st))) = Some u
  /\ _logs (self (snd (OSF_init_deposit pa u st))) = Some ""
  /\ journal (snd (OSF_init_deposit pa u st)) = journal st.
Proof.
  unfold OSF_init_deposit, init_deposit, bind, modify, ret. simpl.
  repeat split.
Qed.

(** ** The program logic: rules *)

Section Rules.

Variable allowed : event -> Prop.

Lemma hoare_bind {A B} pre mid post (m : M A) (f : A -> M B) :
  hoare pre m allowed mid ->
  (forall a, hoare (mid a) (f a) allowed post) ->
  hoare pre (bind m f) allowed post.
Proof.
  intros Hm Hf st Hpre. destruct (Hm st Hpre) as ((evs & Ej & Fa) & Hv).
  unfold bind. destruct (m st) as [[a|e] st1] eqn:E; simpl in *.
  - destruct (Hf a st1 (Hv a eq_refl)) as ((evs' & Ej' & Fa') & Hv').
    split; [|exact Hv'].
    exists (evs ++ evs')%list. rewrite Ej', Ej, app_assoc.
    split; [reflexivity | now apply Forall_app].
  - split; [now exists evs | discriminate].
Qed.

Lemma hoare_conseq {A} (pre pre' : protocol -> Prop) (m : M A)
  (post post' : A -> protocol -> Prop) :
  hoare pre m allowed post ->
  (forall p, pre' p -> pre p) ->
  (forall a p, post a p -> post' a p) ->
  hoare pre' m allowed post'.
Proof.
  intros H Hp Hq st Hpre. destruct (H st (Hp _ Hpre)) as (He & Hv).
  split; [exact He | intros a Ea; apply Hq, Hv, Ea].
Qed.

Lemma silent (j j' : list event) :
  j' = j -> exists evs, j' = (j ++ evs)%list /\ Forall allowed evs.
Proof. intros ->. exists []. now rewrite app_nil_r. Qed.

Lemma hoare_ret {A} pre (a : A) :
  hoare pre (ret a) allowed (fun b p => pre p /\ b = a).
Proof.
  intros st Hpre. split; [now apply silent|].
  simpl. intros b [= <-]. now split.
Qed.

Lemma hoare_raise {A} pre (e : exn) (post : A -> protocol -> Prop) :
  hoare pre (raise e) allowed post.
Proof. intros st Hpre. split; [now apply silent | discriminate]. Qed.

Lemma hoare_lift {A} pre (o : outcome A) :
  hoare pre (lift o) allowed (fun a p => pre p /\ o = Ok a).
Proof.
  intros st Hpre. split; [now apply silent|].
  simpl. intros a ->. now split.
Qed.

Lemma hoare_gets {A} pre (f : protocol -> A) :
  hoare pre (gets f) allowed (fun a p => pre p /\ a = f p).
Proof.
  intros st Hpre. split; [now apply silent|].
  simpl. intros a [= <-]. now split.
Qed.

Lemma hoare_modify pre (g : protocol -> protocol) :
  hoare pre (modify g) allowed (fun _ p => exists p0, pre p0 /\ p = g p0).
Proof.
  intros st Hpre. split; [now apply silent|].
  simpl. intros _ _. now exists (self st).
Qed.

Lemma hoare_history pre :
  hoare pre history allowed (fun _ p => pre p).
Proof. intros st Hpre. split; [now apply silent | now intros]. Qed.

Lemma hoare_emit pre (ev : event) :
  allowed ev -> hoare pre (emit ev) allowed (fun _ p => pre p).
Proof.
  intros Hev st Hpre. split; [|now intros].
  exists [ev]. split; [reflexivity | now constructor].
Qed.

Lemma hoare_attr {A} pre name (f : protocol -> option A) :
  hoare pre (attr name f) allowed (fun a p => pre p /\ f p = Some a).
Proof.
  intros st Hpre. unfold attr, bind, gets, ret, raise. simpl.
  destruct (f (self st)) eqn:E; simpl;
    (split; [now apply silent|]); [|discriminate].
  intros b [= <-]. now split.
Qed.

End Rules.


(** *** Steps that keep an invariant of the instance *)

Section Invariant.

Variable allowed : event -> Prop.
Variable inv : protocol -> Prop.

Let keeps {A} := @keeps A allowed inv.

Lemma keeps_bind {A B} (m : M A) (f : A -> M B) (R : A -> Prop)
  (S : B -> Prop) :
  keeps m R -> (forall a, R a -> keeps (f a) S) -> keeps (bind m f) S.
Proof.
  intros Hm Hf. eapply hoare_bind; [exact Hm|].
  intros a. unfold hoare. intros st [Hinv HR]. exact (Hf a HR st Hinv).
Qed.

Lemma keeps_weaken {A} (m : M A) (R S : A -> Prop) :
  keeps m R -> (forall a, R a -> S a) -> keeps m S.
Proof.
  intros H HRS. eapply hoare_conseq with (pre := inv); [exact H | auto |]; cbv beta.
  intros a p [Hi HR]. split; [exact Hi | apply HRS, HR].
Qed.

Lemma keeps_raise {A} (e : exn) (R : A -> Prop) : keeps (raise e) R.
Proof. apply hoare_raise. Qed.

Lemma keeps_ret {A} (a : A) : keeps (ret a) (fun b => b = a).
Proof. apply hoare_ret. Qed.

Lemma keeps_lift {A} (o : outcome A) : keeps (lift o) (fun a => o = Ok a).
Proof. apply hoare_lift. Qed.

Lemma keeps_gets {A} (f : protocol -> A) :
  keeps (gets f) (fun a => exists p, inv p /\ a = f p).
Proof.
  eapply hoare_conseq with (pre := inv); [apply hoare_gets | auto |]; cbv beta.
  intros a p [Hi E]. split; [exact Hi | now exists p].
Qed.

Lemma keeps_attr {A} name (f : protocol -> option A) :
  keeps (attr name f) (fun a => exists p, inv p /\ f p = Some a).
Proof.
  eapply hoare_conseq with (pre := inv); [apply hoare_attr | auto |]; cbv beta.
  intros a p [Hi E]. split; [exact Hi | now exists p].
Qed.

Lemma keeps_modify (g : protocol -> protocol) :
  (forall p, inv p -> inv (g p)) -> keeps (modify g) (fun _ => True).
Proof.
  intros Hg. eapply hoare_conseq with (pre := inv); [apply hoare_modify | auto |]; cbv beta.
  intros _ p (p0 & Hi & ->). split; [now apply Hg | exact I].
Qed.

Lemma keeps_history : keeps history (fun _ => True).
Proof.
  eapply hoare_conseq with (pre := inv); [apply hoare_history | auto | now split].
Qed.

Lemma keeps_emit (ev : event) :
  allowed ev -> keeps (emit ev) (fun _ => True).
Proof.
  intros H. eapply hoare_conseq with (pre := inv); [now apply hoare_emit | auto | now split].
Qed.

Lemma keeps_as_str (v : json) : keeps (as_str v) (fun s => v = JStr s).
Proof.
  destruct v; try apply keeps_raise.
  eapply keeps_weaken; [apply keeps_ret|]. now intros ? ->.
Qed.

Lemma keeps_concat_attr (a : option string) (b : string) :
  keeps (concat_attr a b) (fun u => exists a', a = Some a' /\ u = a' ++ b).
Proof.
  destruct a as [a'|]; [|apply keeps_raise].
  eapply keeps_weaken; [apply keeps_ret|]. intros ? ->. now exists a'.
Qed.

Lemma keeps_response_json (r : response) :
  keeps (response_json r) (fun _ => True).
Proof.
  unfold response_json. destruct (json_body r); [|apply keeps_raise].
  eapply keeps_weaken; [apply keeps_ret | auto].
Qed.

Lemma keeps_iterate (v : json) : keeps (iterate v) (fun _ => True).
Proof.
  destruct v; try apply keeps_raise;
    (eapply keeps_weaken; [apply keeps_ret | auto]).
Qed.

Lemma keeps_slice_from_1 (v : json) : keeps (slice_from_1 v) (fun _ => True).
Proof.
  destruct v; try apply keeps_raise;
    (eapply keeps_weaken; [apply keeps_ret | auto]).
Qed.

Lemma keeps_translate_links (v : json) :
  keeps (translate_links v) (fun _ => True).
Proof.
  unfold translate_links.
  eapply keeps_bind; [apply keeps_lift | intros l _].
  eapply keeps_weaken; [apply keeps_lift | auto].
Qed.

Lemma keeps_link_of_entry (v : json) :
  keeps (link_of_entry v) (fun _ => True).
Proof.
  unfold link_of_entry.
  eapply keeps_bind; [apply keeps_translate_links | intros l _].
  destruct (hashable l); [|apply keeps_raise].
  eapply keeps_weaken; [apply keeps_ret | auto].
Qed.

Lemma keeps_map_M {A B} (f : A -> M B) (l : list A) :
  (forall a, keeps (f a) (fun _ => True)) ->
  keeps (map_M f l) (fun _ => True).
Proof.
  intros Hf. induction l as [|a l IH]; simpl.
  - eapply keeps_weaken; [apply keeps_ret | auto].
  - eapply keeps_bind; [apply Hf | intros b _].
    eapply keeps_bind; [apply IH | intros bs _].
    eapply keeps_weaken; [apply keeps_ret | auto].
Qed.

Lemma keeps_for_each {A} (f : A -> M unit) (l : list A) :
  (forall a, keeps (f a) (fun _ => True)) ->
  keeps (for_each l f) (fun _ => True).
Proof.
  intros Hf. induction l as [|a l IH]; simpl.
  - eapply keeps_weaken; [apply keeps_ret | auto].
  - eapply keeps_bind; [apply Hf | intros _ _; exact IH].
Qed.

(** The invariant does not read what the request helpers write. *)
Hypothesis inv_logs : forall l p, inv p -> inv (set_logs l p).

Lemma keeps_log (line : string) : keeps (log line) (fun _ => True).
Proof.
  unfold log.
  eapply keeps_bind; [apply keeps_gets | intros [l|] _].
  - apply keeps_modify. intros p. apply inv_logs.
  - apply keeps_raise.
Qed.

Lemma keeps_log_request (r : response) (code : Z) (msg : string) :
  keeps (log_request r code msg) (fun _ => True).
Proof.
  unfold log_request.
  repeat (eapply keeps_bind; [apply keeps_log | intros _ _]).
  destruct (negb _).
  - repeat (eapply keeps_bind; [apply keeps_log | intros _ _]).
    apply keeps_raise.
  - eapply keeps_weaken; [apply keeps_ret | auto].
Qed.

Lemma keeps_send (env : environment) (m : http_method) (url : string)
  (data : body) (h : list (string * string)) :
  allowed (Http {| req_method := m; req_url := url; req_data := data;
                   req_headers := h |}) ->
  keeps (send env m url data h) (fun _ => True).
Proof.
  intros H. unfold send.
  eapply keeps_bind; [apply keeps_history | intros past _].
  eapply keeps_bind; [now apply keeps_emit | intros _ _].
  eapply keeps_weaken; [apply keeps_lift | auto].
Qed.

End Invariant.

Lemma append_assoc (a b c : string) : (a ++ b) ++ c = a ++ (b ++ c).
Proof. induction a as [|x a IH]; simpl; [reflexivity | now rewrite IH]. Qed.

Ltac keeps_prim :=
  first
    [ apply keeps_raise
    | apply keeps_ret
    | apply keeps_lift
    | apply keeps_gets
    | apply keeps_attr
    | apply keeps_history
    | apply keeps_as_str
    | apply keeps_concat_attr
    | apply keeps_response_json
    | apply keeps_iterate
    | apply keeps_slice_from_1
    | apply keeps_translate_links ].

Lemma licensed_logs lic y nl l p :
  licensed lic y nl p -> licensed lic y nl (set_logs l p).
Proof. exact (fun H => H). Qed.

Lemma licensed_headers lic y nl h p :
  licensed lic y nl p -> licensed lic y nl (set_headers h p).
Proof. exact (fun H => H). Qed.

Lemma licensed_node_id lic y nl n p :
  licensed lic y nl p -> licensed lic y nl (set_node_id n p).
Proof. exact (fun H => H). Qed.

Lemma licensed_storage_url lic y nl u p :
  licensed lic y nl p -> licensed lic y nl (set_storage_url u p).
Proof. exact (fun H => H). Qed.

Ltac logs := apply keeps_log; intros ? ?; apply licensed_logs.
Ltac sends := apply keeps_send; simpl; discriminate.
Ltac easy_step :=
  first [ keeps_prim
        | logs
        | apply keeps_log_request; intros ? ?; apply licensed_logs
        | sends
        | apply keeps_emit; exact I
        | apply keeps_map_M; intros ?; apply keeps_link_of_entry
        | apply keeps_modify; intros ?;
          first [ apply licensed_node_id | apply licensed_storage_url
                | apply licensed_headers ] ].
Ltac done_step := eapply keeps_weaken; [easy_step | auto].
Ltac step :=
  lazymatch goal with
  | |- keeps _ _ (bind _ _) _ => eapply keeps_bind; [easy_step | intros ? ?]
  end.

Section License.

Variable env : environment.
Variables lic y nl : string.
Variable authors : list Author.

Let inv := licensed lic y nl.
Let allowed := license_checked env lic y nl authors.

Lemma create_node_licensed abstract tags authors' :
  keeps allowed inv (create_node env abstract tags authors') (fun _ => True).
Proof. unfold create_node. repeat step. done_step. Qed.

Lemma get_newnode_osf_storage_licensed :
  keeps allowed inv (get_newnode_osf_storage env) (fun _ => True).
Proof. unfold get_newnode_osf_storage. repeat step. done_step. Qed.

Lemma add_contributors_licensed authors' :
  keeps allowed inv (add_contributors env authors') (fun _ => True).
Proof.
  unfold add_contributors. repeat step.
  apply keeps_for_each. intros author; cbv beta. repeat step. done_step.
Qed.

Lemma create_preprint_licensed pf_path records :
  keeps allowed inv (create_preprint env pf_path records) (fun _ => True).
Proof. unfold create_preprint. repeat step. done_step. Qed.

Lemma license_block_selected (year : option string) :
  year = Some y ->
  keeps allowed inv (license_block lic nl year (map translate_author authors))
    (selected_block lic y nl authors).
Proof.
  intros ->. unfold license_block.
  destruct (String.eqb lic nl) eqn:E.
  - eapply keeps_weaken; [apply keeps_ret|]. intros b ->. split.
    + intros _. unfold populated_block. now rewrite map_map.
    + intros N. apply String.eqb_eq in E. contradiction.
  - eapply keeps_weaken; [apply keeps_ret|]. intros b ->. split.
    + intros ->. now rewrite String.eqb_refl in E.
    + reflexivity.
Qed.

Lemma create_license_licensed :
  keeps allowed inv (create_license env authors) (fun _ => True).
Proof.
  unfold create_license.
  eapply keeps_bind; [apply keeps_gets | intros api _].
  eapply keeps_bind; [apply keeps_concat_attr | intros u (a' & _ & ->)].
  eapply keeps_bind; [apply keeps_attr | intros n _].
  eapply keeps_bind; [apply keeps_as_str | intros ns ->].
  eapply keeps_bind; [apply keeps_concat_attr | intros lu _].
  eapply keeps_bind; [apply keeps_attr | intros l (p1 & (L1 & _) & E1)].
  assert (l = lic) by congruence. subst l.
  eapply keeps_bind; [apply keeps_gets | intros nl' (p2 & (_ & _ & N2) & ->)].
  rewrite N2.
  eapply keeps_bind; [apply keeps_gets | intros year (p3 & (_ & Y3 & _) & ->)].
  eapply keeps_bind; [now apply license_block_selected | intros block Hb].
  eapply keeps_bind; [apply keeps_attr | intros h _].
  eapply keeps_bind.
  { apply keeps_send. intros _. exists block. split; [exact Hb|].
    left. exists a', ns. split; [apply append_assoc | reflexivity]. }
  intros rsp _. repeat step. done_step.
Qed.

Lemma update_preprint_license_licensed preprint_id :
  keeps allowed inv (update_preprint_license env authors preprint_id)
    (fun _ => True).
Proof.
  unfold update_preprint_license.
  eapply keeps_bind; [apply keeps_gets | intros api _].
  eapply keeps_bind; [apply keeps_concat_attr | intros u (a' & _ & ->)].
  eapply keeps_bind; [apply keeps_attr | intros l (p1 & (L1 & _) & E1)].
  assert (l = lic) by congruence. subst l.
  eapply keeps_bind; [apply keeps_gets | intros nl' (p2 & (_ & _ & N2) & ->)].
  rewrite N2.
  eapply keeps_bind; [apply keeps_gets | intros year (p3 & (_ & Y3 & _) & ->)].
  eapply keeps_bind; [now apply license_block_selected | intros block Hb].
  eapply keeps_bind; [logs | intros _ _].
  eapply keeps_bind; [apply keeps_attr | intros h _].
  eapply keeps_bind.
  { apply keeps_send. intros _. exists block. split; [exact Hb|].
    right. exists a', preprint_id. split; reflexivity. }
  intros rsp _. repeat step. done_step.
Qed.

End License.

Lemma hoare_get_primary_data allowed pre (form : Form) :
  hoare pre (get_primary_data form) allowed
    (fun r p => pre p /\ paper p = Some (fst r)).
Proof.
  intros st Hpre. unfold get_primary_data, attr, bind, gets, ret, raise. simpl.
  destruct (paper (self st)) eqn:E; simpl;
    (split; [now apply silent|]); [|discriminate].
  intros r [= <-]. now split.
Qed.

Lemma hoare_pre_pure {A} (F : Prop) pre (m : M A) allowed post :
  (forall p, pre p -> F) ->
  (F -> hoare pre m allowed post) ->
  hoare pre m allowed post.
Proof. intros H1 H2 st Hpre. exact (H2 (H1 _ Hpre) st Hpre). Qed.

Lemma hoare_of_keeps {A} allowed (inv pre : protocol -> Prop) (m : M A)
  (R : A -> Prop) :
  keeps allowed inv m R ->
  (forall p, pre p -> inv p) ->
  hoare pre m allowed (fun _ _ => True).
Proof.
  intros H Hp. eapply hoare_conseq with (pre := inv); [exact H | exact Hp |].
  intros; exact I.
Qed.

(** Every PATCH request of a deposit attempt is a license update whose
    block is selected by the form's license. *)
Lemma submit_deposit_license_checked (env : environment) (pdf : string)
  (form : Form) (pa : Paper) (nl : string) :
  let lic := form_license form in
  let y := PyStr.drop_last 6 (date pa) in
  hoare (fun p => paper p = Some pa /\ no_license_id p = nl)
    (submit_deposit env pdf form)
    (license_checked env lic y nl (authors pa))
    (fun _ _ => True).
Proof.
  intros lic y. unfold submit_deposit.
  eapply hoare_bind; [apply hoare_gets | intros api; cbv beta].
  destruct (negb (PyStr.truthy api)); [apply hoare_raise|].
  eapply hoare_bind; [apply hoare_gets | intros repo; cbv beta].
  destruct (api_key repo) as [key|]; [|apply hoare_raise].
  eapply hoare_bind; [apply hoare_modify | intros u0; cbv beta].
  eapply hoare_bind; [apply hoare_get_primary_data | intros r; cbv beta].
  eapply hoare_bind; [apply hoare_modify | intros u1; cbv beta].
  apply hoare_pre_pure with (F := fst r = pa).
  { intros p (p0 & ((p1 & (((Hp & _) & _) & _) & ->) & E) & _).
    simpl in E. congruence. }
  intros ->.
  apply hoare_of_keeps with (inv := licensed lic y nl) (R := fun _ => True).
  2:{ intros p (p0 & ((p1 & (((_ & Hn) & _) & _) & ->) & _) & ->).
      repeat split. exact Hn. }
  repeat step.
  eapply keeps_bind; [apply create_node_licensed | intros ? ?].
  repeat step.
  eapply keeps_bind; [apply get_newnode_osf_storage_licensed | intros ? ?].
  repeat step.
  eapply keeps_bind; [apply add_contributors_licensed | intros ? ?].
  eapply keeps_bind; [apply create_license_licensed | intros ? ?].
  eapply keeps_bind; [apply create_preprint_licensed | intros ? ?].
  repeat step.
  eapply keeps_bind; [apply update_preprint_license_licensed | intros ? ?].
  repeat step.
  eapply keeps_weaken; [apply keeps_ret | auto].
Qed.

(** *** Running the steps that do not depend on the outside world *)

Lemma bind_ret {A B} (a : A) (k : A -> M B) st : bind (ret a) k st = k a st.
Proof. reflexivity. Qed.

Lemma bind_gets {A B} (f : protocol -> A) (k : A -> M B) st :
  bind (gets f) k st = k (f (self st)) st.
Proof. reflexivity. Qed.

Lemma bind_attr {A B} name (f : protocol -> option A) (a : A) (k : A -> M B) st :
  f (self st) = Some a -> bind (attr name f) k st = k a st.
Proof. intros H. unfold attr, bind, gets. simpl. now rewrite H. Qed.

Lemma bind_history {B} (k : list event -> M B) st :
  bind history k st = k (journal st) st.
Proof. reflexivity. Qed.

Lemma bind_emit {B} (ev : event) (k : unit -> M B) st :
  bind (emit ev) k st
  = k tt {| self := self st; journal := (journal st ++ [ev])%list |}.
Proof. reflexivity. Qed.

Lemma bind_log {B} (line l : string) (k : unit -> M B) st :
  _logs (self st) = Some l ->
  bind (log line) k st
  = k tt {| self := set_logs (Some (l ++ line ++ nl)) (self st);
            journal := journal st |}.
Proof. intros H. unfold log, bind, gets, modify. simpl. now rewrite H. Qed.

(** Steps that add nothing to the journal. *)
Lemma quiet_journal {A} (m : M A) (R : A -> Prop) (st : state) :
  keeps (fun _ => False) (fun _ => True) m R ->
  journal (snd (m st)) = journal st.
Proof.
  intros H. destruct (H st I) as ((evs & E & F) & _).
  destruct evs as [|ev evs]; [now rewrite app_nil_r in E|].
  inversion F; contradiction.
Qed.

Ltac quiet :=
  repeat (eapply keeps_bind;
          [first [apply keeps_log | apply keeps_log_request]; auto
          | intros ? ?]);
  eapply keeps_weaken;
    [first [apply keeps_log | apply keeps_log_request]; auto | auto].

(** A request followed by steps that only log adds one event. *)
Lemma send_then_log {B} (env : environment) m url data h
  (k : response -> M B) (st : state) :
  (forall r, keeps (fun _ => False) (fun _ => True) (k r) (fun _ => True)) ->
  journal (snd (bind (send env m url data h) k st))
  = (journal st ++ [Http {| req_method := m; req_url := url; req_data := data;
                            req_headers := h |}])%list.
Proof.
  intros Hk. unfold send. unfold bind at 1. rewrite bind_history, bind_emit.
  unfold lift.
  destruct (requests_send env (journal st) _) as [r|e]; [|reflexivity].
  now rewrite quiet_journal with (R := fun _ : B => True) by apply Hk.
Qed.



Lemma length_app (a b : string) :
  String.length (a ++ b) = String.length a + String.length b.
Proof. induction a as [|c a IH]; simpl; [reflexivity | now rewrite IH]. Qed.

Lemma take_app (a b : string) : PyStr.take (String.length a) (a ++ b) = a.
Proof. induction a as [|c a IH]; simpl; [now destruct b | now rewrite IH]. Qed.

(** Dropping the last [k] characters removes a suffix of length [k]: for a
    date such as 2017-05-12 the six characters are the month and the
    day, and what is left is the year. *)
Lemma drop_last_suffix (k : nat) (a b : string) :
  String.length b = k -> PyStr.drop_last k (a ++ b) = a.
Proof.
  intros <-. unfold PyStr.drop_last. rewrite length_app.
  replace (String.length a + String.length b - String.length b)
    with (String.length a) by lia.
  apply take_app.
Qed.

(** *** The events of a deposit, one by one: rules *)

Section Unfolding.

Lemma unfolds_bind {A B} pre mid post (m : M A) (k : A -> M B)
  (f1 f2 : list (event -> Prop)) :
  unfolds pre m f1 mid ->
  (forall a, unfolds (mid a) (k a) f2 post) ->
  unfolds pre (bind m k) (f1 ++ f2)%list post.
Proof.
  intros Hm Hk st Hpre. destruct (Hm st Hpre) as (evs & Ej & Ho).
  unfold bind. destruct (m st) as [[a|e] st1]; cbn [fst snd] in *.
  - destruct Ho as [Hf Hmid].
    destruct (Hk a st1 Hmid) as (evs' & Ej' & Ho').
    exists (evs ++ evs')%list. split; [now rewrite Ej', Ej, app_assoc|].
    destruct (fst (k a st1)).
    + destruct Ho' as [Hf' Hp]. split; [now apply Forall2_app | exact Hp].
    + destruct Ho' as (done & rest & -> & Hd).
      exists (f1 ++ done)%list, rest.
      split; [now rewrite app_assoc | now apply Forall2_app].
  - destruct Ho as (done & rest & -> & Hd). exists evs. split; [exact Ej|].
    exists done, (rest ++ f2)%list. split; [now rewrite app_assoc | exact Hd].
Qed.

Lemma unfolds_conseq {A} (pre pre' : protocol -> Prop) (m : M A)
  (pattern : list (event -> Prop)) (post post' : A -> protocol -> Prop) :
  unfolds pre m pattern post ->
  (forall p, pre' p -> pre p) ->
  (forall a p, post a p -> post' a p) ->
  unfolds pre' m pattern post'.
Proof.
  intros H Hp Hq st Hpre. destruct (H st (Hp _ Hpre)) as (evs & Ej & Ho).
  exists evs. split; [exact Ej|].
  destruct (fst (m st)); [|exact Ho]. destruct Ho. split; auto.
Qed.

Lemma unfolds_pre_pure {A} (F : Prop) pre (m : M A) pattern post :
  (forall p, pre p -> F) ->
  (F -> unfolds pre m pattern post) ->
  unfolds pre m pattern post.
Proof. intros H1 H2 st Hpre. exact (H2 (H1 _ Hpre) st Hpre). Qed.

(** A step that adds nothing to the journal. *)
Lemma unfolds_quiet {A} pre (m : M A) post :
  hoare pre m (fun _ => False) post -> unfolds pre m [] post.
Proof.
  intros H st Hpre. destruct (H st Hpre) as ((evs & Ej & F) & Hv).
  destruct evs as [|ev evs]; [|inversion F; contradiction].
  exists []. split; [exact Ej|].
  destruct (fst (m st)) as [a|e].
  - split; [constructor | now apply Hv].
  - exists [], []. split; [reflexivity | constructor].
Qed.

Lemma unfolds_bind_quiet {A B} pre mid post (m : M A) (k : A -> M B)
  (pattern : list (event -> Prop)) :
  hoare pre m (fun _ => False) mid ->
  (forall a, unfolds (mid a) (k a) pattern post) ->
  unfolds pre (bind m k) pattern post.
Proof.
  intros Hm Hk. change pattern with ([] ++ pattern)%list.
  eapply unfolds_bind; [apply unfolds_quiet, Hm | exact Hk].
Qed.

Lemma unfolds_raise {A} pre (e : exn) pattern (post : A -> protocol -> Prop) :
  unfolds pre (raise e) pattern post.
Proof.
  intros st Hpre. exists []. split; [now rewrite app_nil_r|].
  exists [], pattern. split; [reflexivity | constructor].
Qed.

Lemma unfolds_emit pre (ev : event) (described : event -> Prop) :
  described ev -> unfolds pre (emit ev) [described] (fun _ p => pre p).
Proof.
  intros Hev st Hpre. exists [ev]. split; [reflexivity|].
  split; [repeat constructor; exact Hev | exact Hpre].
Qed.

Lemma unfolds_send pre (env : environment) (m : http_method) (url : string)
  (data : body) (h : list (string * string)) (described : event -> Prop) :
  described (Http {| req_method := m; req_url := url; req_data := data;
                     req_headers := h |}) ->
  unfolds pre (send env m url data h) [described] (fun _ p => pre p).
Proof.
  intros Hev st Hpre. unfold send, bind, history, gets, emit, lift.
  cbn [fst snd self journal].
  eexists. split; [reflexivity|].
  destruct (requests_send env (journal st) _); cbn [fst snd self].
  - split; [repeat constructor; exact Hev | exact Hpre].
  - exists [described], []. split; [reflexivity|].
    repeat constructor; exact Hev.
Qed.

Variable inv : protocol -> Prop.

(** Steps that keep an invariant of the instance. *)
Lemma unfolds_step_quiet {A B} (m : M A) (k : A -> M B) (R : A -> Prop)
  pattern post :
  keeps (fun _ => False) inv m R ->
  (forall a, R a -> unfolds inv (k a) pattern post) ->
  unfolds inv (bind m k) pattern post.
Proof.
  intros Hm Hk. eapply unfolds_bind_quiet; [exact Hm|].
  intros a st [Hi Hr]. exact (Hk a Hr st Hi).
Qed.

Lemma unfolds_step_app {A B} (m : M A) (k : A -> M B) f1 f2 post :
  unfolds inv m f1 (fun _ p => inv p) ->
  (forall a, unfolds inv (k a) f2 post) ->
  unfolds inv (bind m k) (f1 ++ f2)%list post.
Proof. intros Hm Hk. eapply unfolds_bind; [exact Hm | exact Hk]. Qed.

Lemma unfolds_step_cons {A B} (m : M A) (k : A -> M B)
  (described : event -> Prop) rest post :
  unfolds inv m [described] (fun _ p => inv p) ->
  (forall a, unfolds inv (k a) rest post) ->
  unfolds inv (bind m k) (described :: rest) post.
Proof.
  intros Hm Hk. change (described :: rest) with ([described] ++ rest)%list.
  now apply unfolds_step_app.
Qed.

Lemma unfolds_end_quiet {A} (m : M A) (R : A -> Prop) :
  keeps (fun _ => False) inv m R -> unfolds inv m [] (fun _ p => inv p).
Proof.
  intros H. eapply unfolds_conseq with (pre := inv);
    [apply unfolds_quiet, H | auto |]; cbv beta.
  now intros a p [Hi _].
Qed.

Lemma unfolds_for_each {A} (f : A -> M unit) (described : event -> Prop)
  (l : list A) :
  (forall a, unfolds inv (f a) [described] (fun _ p => inv p)) ->
  unfolds inv (for_each l f) (repeat described (List.length l))
    (fun _ p => inv p).
Proof.
  intros Hf. induction l as [|a l IH]; cbn [for_each List.length repeat].
  - apply unfolds_end_quiet with (R := fun b => b = tt). apply keeps_ret.
  - eapply unfolds_step_cons; [apply Hf | intros _; exact IH].
Qed.

End Unfolding.

Ltac hush :=
  lazymatch goal with
  | |- unfolds _ (bind _ _) _ _ =>
      eapply unfolds_step_quiet; [easy_step | intros ? ?]
  end.
Ltac hush_end := eapply unfolds_end_quiet; easy_step.
Ltac request_step :=
  lazymatch goal with
  | |- unfolds _ (bind (send _ _ _ _ _) _) _ _ =>
      eapply unfolds_step_cons;
        [apply unfolds_send; eexists; split; reflexivity | intros ?]
  end.

Section LicenseSent.

Variable env : environment.
Variables lic y nl : string.
Variable authors : list Author.

Let inv := licensed lic y nl.

Lemma create_node_unfolds abstract tags authors' :
  unfolds inv (create_node env abstract tags authors') [is_request POST]
    (fun _ p => inv p).
Proof. unfold create_node. repeat hush. request_step. repeat hush. hush_end. Qed.

Lemma get_newnode_osf_storage_unfolds :
  unfolds inv (get_newnode_osf_storage env) [is_request GET]
    (fun _ p => inv p).
Proof.
  unfold get_newnode_osf_storage. repeat hush. request_step. repeat hush.
  hush_end.
Qed.

Lemma add_contributors_unfolds authors' :
  unfolds inv (add_contributors env authors')
    (repeat (is_request POST) (List.length authors')) (fun _ p => inv p).
Proof.
  unfold add_contributors. repeat hush.
  apply unfolds_for_each. intros author; cbv beta.
  repeat hush. request_step. hush_end.
Qed.

Lemma create_preprint_unfolds pf_path records :
  unfolds inv (create_preprint env pf_path records) [is_request POST]
    (fun _ p => inv p).
Proof.
  unfold create_preprint. repeat hush. request_step. repeat hush. hush_end.
Qed.

Lemma license_block_selects (year : option string) :
  year = Some y ->
  keeps (fun _ => False) inv
    (license_block lic nl year (map translate_author authors))
    (selected_block lic y nl authors).
Proof.
  intros ->. unfold license_block.
  destruct (String.eqb lic nl) eqn:E.
  - eapply keeps_weaken; [apply keeps_ret|]. intros b ->. split.
    + intros _. unfold populated_block. now rewrite map_map.
    + intros N. apply String.eqb_eq in E. contradiction.
  - eapply keeps_weaken; [apply keeps_ret|]. intros b ->. split.
    + intros ->. now rewrite String.eqb_refl in E.
    + reflexivity.
Qed.

(** [create_license] sends the PATCH of the node, with the selected
    block, and nothing else. *)
Lemma create_license_unfolds :
  unfolds inv (create_license env authors)
    [node_license_update env lic y nl authors] (fun _ p => inv p).
Proof.
  unfold create_license.
  eapply unfolds_step_quiet; [apply keeps_gets | intros api _].
  eapply unfolds_step_quiet;
    [apply keeps_concat_attr | intros u (a' & _ & ->)].
  eapply unfolds_step_quiet; [apply keeps_attr | intros n _].
  eapply unfolds_step_quiet; [apply keeps_as_str | intros ns ->].
  eapply unfolds_step_quiet; [apply keeps_concat_attr | intros lu _].
  eapply unfolds_step_quiet;
    [apply keeps_attr | intros l (p1 & (L1 & _) & E1)].
  assert (l = lic) by congruence. subst l.
  eapply unfolds_step_quiet;
    [apply keeps_gets | intros nl' (p2 & (_ & _ & N2) & ->)].
  rewrite N2.
  eapply unfolds_step_quiet;
    [apply keeps_gets | intros year (p3 & (_ & Y3 & _) & ->)].
  eapply unfolds_step_quiet;
    [now apply license_block_selects | intros block Hb].
  eapply unfolds_step_quiet; [apply keeps_attr | intros h _].
  eapply unfolds_step_cons.
  { apply unfolds_send. exists a', ns, h, block. split; [exact Hb|].
    now rewrite append_assoc. }
  intros rsp. repeat hush. hush_end.
Qed.

(** [update_preprint_license] sends the PATCH of the preprint, with the
    selected block, and nothing else. *)
Lemma update_preprint_license_unfolds preprint_id :
  unfolds inv (update_preprint_license env authors preprint_id)
    [preprint_license_update env lic y nl authors] (fun _ p => inv p).
Proof.
  unfold update_preprint_license.
  eapply unfolds_step_quiet; [apply keeps_gets | intros api _].
  eapply unfolds_step_quiet;
    [apply keeps_concat_attr | intros u (a' & _ & ->)].
  eapply unfolds_step_quiet;
    [apply keeps_attr | intros l (p1 & (L1 & _) & E1)].
  assert (l = lic) by congruence. subst l.
  eapply unfolds_step_quiet;
    [apply keeps_gets | intros nl' (p2 & (_ & _ & N2) & ->)].
  rewrite N2.
  eapply unfolds_step_quiet;
    [apply keeps_gets | intros year (p3 & (_ & Y3 & _) & ->)].
  eapply unfolds_step_quiet;
    [now apply license_block_selects | intros block Hb].
  eapply unfolds_step_quiet; [logs | intros _ _].
  eapply unfolds_step_quiet; [apply keeps_attr | intros h _].
  eapply unfolds_step_cons.
  { apply unfolds_send. exists a', preprint_id, h, block.
    split; [exact Hb | reflexivity]. }
  intros rsp. repeat hush. hush_end.
Qed.

End LicenseSent.

(** The events of a deposit attempt, one by one. *)
Lemma submit_deposit_unfolds (env : environment) (pdf : string)
  (form : Form) (pa : Paper) (nl : string) :
  let lic := form_license form in
  let y := PyStr.drop_last 6 (date pa) in
  unfolds (fun p => paper p = Some pa /\ no_license_id p = nl)
    (submit_deposit env pdf form)
    (deposit_pattern env pdf lic y nl (authors pa))
    (fun _ _ => True).
Proof.
  intros lic y. unfold submit_deposit, deposit_pattern. cbn [app].
  eapply unfolds_bind_quiet; [apply hoare_gets | intros api; cbv beta].
  destruct (negb (PyStr.truthy api)); [apply unfolds_raise|].
  eapply unfolds_bind_quiet; [apply hoare_gets | intros repo; cbv beta].
  destruct (api_key repo) as [key|]; [|apply unfolds_raise].
  eapply unfolds_bind_quiet; [apply hoare_modify | intros u0; cbv beta].
  eapply unfolds_bind_quiet;
    [apply hoare_get_primary_data | intros r; cbv beta].
  eapply unfolds_bind_quiet; [apply hoare_modify | intros u1; cbv beta].
  apply unfolds_pre_pure with (F := fst r = pa).
  { intros p (p0 & ((p1 & (((Hp & _) & _) & _) & ->) & E) & _).
    simpl in E. congruence. }
  intros ->.
  apply unfolds_conseq with (pre := licensed lic y nl)
                            (post := fun _ p => licensed lic y nl p).
  2:{ intros p (p0 & ((p1 & (((_ & Hn) & _) & _) & ->) & _) & ->).
      repeat split. exact Hn. }
  2:{ intros; exact I. }
  repeat hush.
  eapply unfolds_step_cons; [apply create_node_unfolds | intros ?].
  repeat hush.
  eapply unfolds_step_cons; [apply get_newnode_osf_storage_unfolds | intros ?].
  repeat hush.
  eapply unfolds_step_cons; [apply unfolds_emit; reflexivity | intros ?].
  repeat hush. request_step. repeat hush.
  eapply unfolds_step_app; [apply add_contributors_unfolds | intros ?].
  eapply unfolds_step_cons; [apply create_license_unfolds | intros ?].
  eapply unfolds_step_cons; [apply create_preprint_unfolds | intros ?].
  repeat hush.
  eapply unfolds_step_cons;
    [apply update_preprint_license_unfolds | intros ?].
  repeat hush. hush_end.
Qed.


(** In the sandbox scenario both license updates are sent, after the three
    contributor requests and around the preprint creation; with the
    sentinel selected both blocks hold the year and the three authors. *)
Example sandbox_sentinel_patches :
  map req_data
    (filter (fun rq => match req_method rq with PATCH => true | _ => false end)
       (sent (journal (snd (submit_deposit Scenario.env "article.pdf"
                              (Scenario.form_with "58fd62fcda3e2400012ca5cc")
                              Scenario.ready)))))
  = [ Text (Scenario.render
              (license_structure (JStr "q7k2m") "58fd62fcda3e2400012ca5cc"
                 (populated_block "2017" (authors Scenario.the_paper))));
      Text (Scenario.render
              (updated_preprint_struc (JStr "w3xzp") "58fd62fcda3e2400012ca5cc"
                 (populated_block "2017" (authors Scenario.the_paper)))) ].
Proof. vm_compute. reflexivity. Qed.

Example sandbox_other_license_patches :
  map req_data
    (filter (fun rq => match req_method rq with PATCH => true | _ => false end)
       (sent (journal (snd (submit_deposit Scenario.env "article.pdf"
                              (Scenario.form_with Scenario.cc_by)
                              Scenario.ready)))))
  = [ Text (Scenario.render
              (license_structure (JStr "q7k2m") Scenario.cc_by (JDict [])));
      Text (Scenario.render
              (updated_preprint_struc (JStr "w3xzp") Scenario.cc_by (JDict []))) ].
Proof. vm_compute. reflexivity. Qed.


(** ** The result of an OSF deposit *)

Lemma bind_Ok {A B} (m : M A) (f : A -> M B) (st st' : state) (b : B) :
  bind m f st = (Ok b, st') ->
  exists a st1, m st = (Ok a, st1) /\ f a st1 = (Ok b, st').
Proof.
  unfold bind. destruct (m st) as [[a|e] st1]; [|discriminate].
  intros H. now exists a, st1.
Qed.

(** Follows a run that returned a value through its steps. *)
Ltac follow H :=
  repeat
    match type of H with
    | bind _ _ _ = (Ok _, _) =>
        let a := fresh "a" in
        let s := fresh "s" in
        let E := fresh "E" in
        apply bind_Ok in H; destruct H as (a & s & E & H); cbv beta in H
    | (if ?c then _ else _) _ = (Ok _, _) => destruct c
    | (match ?x with Some _ => _ | None => _ end) _ = (Ok _, _) => destruct x
    | raise _ _ = (Ok _, _) => discriminate H
    end.

(** Whenever [OSFProtocol.submit_deposit] returns, the result is the
    [DepositResult()] created before the first request: no identifier, no
    splash URL, no PDF URL, status 'published'. *)
Lemma submit_deposit_result_is_blank (env : environment) (pdf : string)
  (form : Form) (st : state) (r : DepositResult) :
  fst (submit_deposit env pdf form st) = Ok r ->
  identifier r = None /\ splash_url r = None /\ pdf_url r = None
  /\ status r = "published".
Proof.
  destruct (submit_deposit env pdf form st) as [o st'] eqn:H. simpl.
  intros ->. unfold submit_deposit in H. follow H.
  injection H as <- _.
  match goal with
  | E : lift (DepositResult_init _ _ _ _ _ _ _) _ = (Ok _, _) |- _ =>
      unfold lift, DepositResult_init in E;
      destruct (negb _) in E; [discriminate E|];
      injection E as <- _
  end.
  repeat split.
Qed.

(** C1 (what the code does). On the sandbox scenario the nine requests are
    sent in order and each gets the status code the backend expects; the
    preprint is created and the public URLs are computed and logged; the
    result that is returned has no identifier, and neither a splash URL
    ending in the preprint id nor a PDF URL ending in "/download": both
    are [None]. *)
Theorem osf_deposit_result_left_blank :
  let run := submit_deposit Scenario.env "article.pdf"
               (Scenario.form_with Scenario.cc_by) Scenario.ready in
  let ends_with suffix url :=
    match url with Some u => PyStr.endswith suffix u | None => false end in
  map req_method (sent (journal (snd run)))
    = [POST; GET; PUT; POST; POST; POST; PATCH; POST; PATCH]
  /\ match _logs (self (snd run)) with
     | Some l =>
         PyStr.contains
           ("https://test.osf.io/w3xzp" ++ nl
            ++ "https://test.osf.io/w3xzp/download" ++ nl) l
     | None => false
     end = true
  /\ fst run = Ok (Scenario.published None None None)
  /\ (forall r, fst run = Ok r ->
        identifier r = None
        /\ ends_with "w3xzp" (splash_url r) = false
        /\ ends_with "/download" (pdf_url r) = false).
Proof.
  cbv zeta. split; [vm_compute; reflexivity|].
  split; [vm_compute; reflexivity|].
  split; [vm_compute; reflexivity|].
  intros r H. destruct (submit_deposit_result_is_blank _ _ _ _ H) as (A & B & C & _).
  rewrite A, B, C. now repeat split.
Qed.

(** When the first contributor request (the fourth call) is refused, the
    attempt stops there with a [DepositError]: no preprint is created. *)
Example refused_contributor_aborts :
  let run := submit_deposit
               (Scenario.env_with (fun _ => Ok tt)
                  Scenario.server_refusing_contributor)
               "article.pdf" (Scenario.form_with Scenario.cc_by)
               Scenario.ready in
  fst run = Raise (new_exn DepositError "Unable to add contributors.")
  /\ map req_method (sent (journal (snd run))) = [POST; GET; PUT; POST].
Proof. split; vm_compute; reflexivity. Qed.

(** ** The submission wrapper *)

(** The payload is built before the [try] statement, and building it
    needs the global name [reverse], which the module never binds: every
    call of the wrapper stops there, with the instance and the journal as
    they were. *)
Lemma wrapper_stops_at_reverse (env : environment)
  (submit_deposit : M DepositResult) (st : state) :
  submit_deposit_wrapper env submit_deposit st
  = (Raise (match user (self st) with
            | Some _ => new_exn NameError "global name 'reverse' is not defined"
            | None => new_exn AttributeError "name"
            end), st).
Proof.
  unfold submit_deposit_wrapper, submit_deposit_wrapper_in, attr, bind, gets.
  simpl. destruct (user (self st)); reflexivity.
Qed.

(** Once the name is bound, the wrapper is its [try] statement run with
    the payload: display name, repository name, paper URL. *)
Lemma wrapper_in_bound (env : environment) (globals : list string)
  (submit_deposit : M DepositResult) (st : state) (u : User) (pa : Paper)
  (url : string) :
  existsb (String.eqb "reverse") (globals ++ builtins)%list = true ->
  user (self st) = Some u ->
  paper (self st) = Some pa ->
  reverse env "paper" [pk pa] = Ok url ->
  submit_deposit_wrapper_in env globals submit_deposit st
  = wrapper_try env submit_deposit
      {| payload_name :=
           if PyStr.nonempty (first_name u) && PyStr.nonempty (last_name u)
           then first_name u ++ " " ++ last_name u else user_name u;
         payload_repo := repository_name (repository (self st));
         payload_paperurl := url |} st.
Proof.
  intros Hg Hu Hp Hr.
  unfold submit_deposit_wrapper_in, load_global. rewrite Hg.
  unfold attr, bind, gets, lift, ret. simpl. rewrite Hu, Hp. simpl.
  rewrite Hr. reflexivity.
Qed.

Lemma contains_here (p s : string) : PyStr.startswith p (p ++ s) = true.
Proof.
  induction p as [|c p IH]; [reflexivity|].
  simpl. now rewrite Ascii.eqb_refl, IH.
Qed.

Lemma contains_middle (a p b : string) : PyStr.contains p (a ++ p ++ b) = true.
Proof.
  induction a as [|c a IH].
  - simpl. destruct (p ++ b) eqn:E; simpl; rewrite <- E, contains_here;
      reflexivity.
  - simpl. rewrite IH. apply orb_true_r.
Qed.

Section TryStatement.

Variable env : environment.
Variable submit_deposit : M DepositResult.
Variable payload : Payload.
Variables st st1 : state.

Hypothesis failed_is_a_status :
  In "failed" (map fst (DEPOSIT_STATUS_CHOICES env)).

Lemma failed_accepted :
  negb (existsb (String.eqb "failed") (map fst (DEPOSIT_STATUS_CHOICES env)))
  = false.
Proof.
  apply negb_false_iff, existsb_eqb_In, failed_is_a_status.
Qed.

(** X16. A [DepositError] with message [X]: the message is logged, the
    callback is called once with [X] appended to the paper URL, and the
    result is 'failed' with message [X]. *)
Lemma try_DepositError_reported (e : exn) (X : string) (rest : list string)
  (l : string) :
  submit_deposit st = (Raise e, st1) ->
  is_DepositError e = true ->
  exn_args e = X :: rest ->
  _logs (self st1) = Some l ->
  let told := {| payload_name := payload_name payload;
                 payload_repo := payload_repo payload;
                 payload_paperurl := payload_paperurl payload ++ " " ++ X |} in
  DEPOSIT_NOTIFICATION_CALLBACK env told = Ok tt ->
  let l' := l ++ ("Message: " ++ X) ++ nl in
  wrapper_try env submit_deposit payload st
  = (Ok {| identifier := None; splash_url := None; pdf_url := None;
           logs := Some l'; status := "failed"; message := Some X;
           oairecord := None; additional_info := [] |},
     {| self := set_logs (Some l') (self st1);
        journal := (journal st1 ++ [Notify told])%list |})
  /\ PyStr.contains X l' = true.
Proof.
  intros Hs Hd Ha Hl told Hc l'. split.
  - unfold wrapper_try, try_except, bind. rewrite Hs, Hd.
    unfold args0, log, bind, gets, modify, notify, bind, emit, lift, ret.
    rewrite Ha. simpl. rewrite Hl.
    unfold told in Hc. simpl in Hc |- *. rewrite Hc. simpl.
    unfold DepositResult_init. rewrite failed_accepted. reflexivity.
  - unfold l'. rewrite (append_assoc "Message: " X nl).
    rewrite <- (append_assoc l "Message: " (X ++ nl)).
    apply contains_middle.
Qed.

(** X17. Any other [Exception] whose text and stack trace are ASCII,
    raised once the log is started and with 'failed' among the status
    choices: its type, its text and the stack trace are logged, the
    callback is not called, and the result is 'failed' with the generic
    message. *)
Lemma try_exception_masked (e : exn) (l : string) :
  submit_deposit st = (Raise e, st1) ->
  is_DepositError e = false ->
  is_Exception e = true ->
  PyStr.is_ascii (exn_str e) = true ->
  PyStr.is_ascii (format_exc env e) = true ->
  _logs (self st1) = Some l ->
  let l' := ((l ++ "Caught exception:" ++ nl)
             ++ (type_repr e ++ ": " ++ exn_str e ++ "") ++ nl)
            ++ format_exc env e ++ nl in
  wrapper_try env submit_deposit payload st
  = (Ok {| identifier := None; splash_url := None; pdf_url := None;
           logs := Some l'; status := "failed";
           message := Some (ugettext env GENERIC_MESSAGE);
           oairecord := None; additional_info := [] |},
     {| self := set_logs (Some l') (self st1); journal := journal st1 |})
  /\ PyStr.contains (type_repr e ++ ": " ++ exn_str e) l' = true.
Proof.
  intros Hs Hd He Ht Hb Hl l'. split.
  - unfold wrapper_try, try_except, bind. rewrite Hs, Hd, He.
    unfold str_of_exn, log_bytes. rewrite Ht, Hb.
    unfold log, bind, gets, modify, lift, ret. simpl. rewrite Hl. simpl.
    unfold DepositResult_init. rewrite failed_accepted. reflexivity.
  - unfold l'.
    replace (type_repr e ++ ": " ++ exn_str e ++ "")
      with (type_repr e ++ ": " ++ exn_str e).
    + set (A := l ++ "Caught exception:" ++ nl).
      set (P := type_repr e ++ ": " ++ exn_str e).
      set (F := format_exc env e ++ nl).
      rewrite (append_assoc A (P ++ nl) F), (append_assoc P nl F).
      apply contains_middle.
    + f_equal. f_equal. generalize (exn_str e). clear.
      intros s. induction s; simpl; congruence.
Qed.

(** X21. An [Exception] whose text is not ASCII, raised once the log is
    started: [str(e)] fails in the clause, after the first line was
    logged; the encoding error leaves the [try] statement, no result is
    returned and the callback is not called. *)
Lemma try_exception_text_escapes (e : exn) (l : string) :
  submit_deposit st = (Raise e, st1) ->
  is_DepositError e = false ->
  is_Exception e = true ->
  PyStr.is_ascii (exn_str e) = false ->
  _logs (self st1) = Some l ->
  wrapper_try env submit_deposit payload st
  = (Raise (new_exn UnicodeEncodeError
              "'ascii' codec can't encode character: ordinal not in range(128)"),
     {| self := set_logs (Some (l ++ "Caught exception:" ++ nl)) (self st1);
        journal := journal st1 |}).
Proof.
  intros Hs Hd He Ht Hl. unfold wrapper_try, try_except, bind.
  rewrite Hs, Hd, He. unfold str_of_exn. rewrite Ht.
  unfold log, bind, gets, modify, raise. simpl. now rewrite Hl.
Qed.

(** An [Exception] whose stack trace is not ASCII: appending the trace to
    the log fails, and the decoding error leaves the [try] statement. *)
Lemma try_exception_trace_escapes (e : exn) (l : string) :
  submit_deposit st = (Raise e, st1) ->
  is_DepositError e = false ->
  is_Exception e = true ->
  PyStr.is_ascii (exn_str e) = true ->
  PyStr.is_ascii (format_exc env e) = false ->
  _logs (self st1) = Some l ->
  fst (wrapper_try env submit_deposit payload st)
  = Raise (new_exn UnicodeDecodeError
             "'ascii' codec can't decode byte: ordinal not in range(128)")
  /\ journal (snd (wrapper_try env submit_deposit payload st)) = journal st1.
Proof.
  intros Hs Hd He Ht Hb Hl. unfold wrapper_try, try_except, bind.
  rewrite Hs, Hd, He. unfold str_of_exn, log_bytes. rewrite Ht, Hb.
  unfold log, bind, gets, modify, raise, ret. simpl. rewrite Hl. simpl.
  split; reflexivity.
Qed.

(** An exception that is not an [Exception] leaves the wrapper. *)
Lemma try_interrupt_escapes (e : exn) :
  submit_deposit st = (Raise e, st1) ->
  is_DepositError e = false ->
  is_Exception e = false ->
  wrapper_try env submit_deposit payload st = (Raise e, st1).
Proof.
  intros Hs Hd He. unfold wrapper_try, try_except, bind.
  now rewrite Hs, Hd, He.
Qed.

(** X19. A result without splash URL: no record is built; the callback is
    called once with the payload. *)
Lemma try_success_plain (r : DepositResult) :
  submit_deposit st = (Ok r, st1) ->
  PyStr.truthy (splash_url r) = false ->
  DEPOSIT_NOTIFICATION_CALLBACK env payload = Ok tt ->
  wrapper_try env submit_deposit payload st
  = (Ok (set_result_logs r (_logs (self st1))),
     {| self := self st1; journal := (journal st1 ++ [Notify payload])%list |}).
Proof.
  intros Hs Ht Hc. unfold wrapper_try, try_except, bind.
  rewrite Hs. unfold gets. simpl. rewrite Ht.
  unfold ret, notify, bind, emit, lift. simpl. now rewrite Hc.
Qed.

(** X18. A result with a splash URL: one record is built, with the
    identifier "deposition:<repository id>:<result identifier>" and the
    URLs of the result; the paper attaches it, the attached record is
    stored on the result, and the callback is called once. *)
Lemma try_success_attaches (r : DepositResult) (pa : Paper)
  (attached : BareOaiRecord) :
  submit_deposit st = (Ok r, st1) ->
  PyStr.truthy (splash_url r) = true ->
  paper (self st1) = Some pa ->
  let repo := repository (self st1) in
  let rec := {| rec_source := oaisource repo;
                rec_identifier :=
                  "deposition:" ++ PyStr.of_Z (repository_id repo) ++ ":"
                  ++ unicode_opt (identifier r);
                rec_splash_url := splash_url r;
                rec_pdf_url := pdf_url r |} in
  add_oairecord env pa rec = Ok attached ->
  DEPOSIT_NOTIFICATION_CALLBACK env payload = Ok tt ->
  wrapper_try env submit_deposit payload st
  = (Ok (set_result_oairecord (set_result_logs r (_logs (self st1)))
           (Some attached)),
     {| self := self st1;
        journal := ((journal st1 ++ [AddOaiRecord rec]) ++ [Notify payload])%list |}).
Proof.
  intros Hs Ht Hp repo rec Ha Hc. unfold wrapper_try, try_except, bind.
  rewrite Hs. unfold gets. simpl. rewrite Ht.
  unfold paper_add_oairecord, attr, bind, gets, ret, emit, lift, notify, bind,
    emit, lift.
  simpl. rewrite Hp. unfold rec, repo in Ha. simpl in Ha |- *.
  rewrite Ha. simpl. now rewrite Hc.
Qed.

End TryStatement.

(** The [try] statement on the sandbox scenario, with the URL resolver
    bound. *)
Example bound_wrapper_reports_DepositError :
  let run := submit_deposit_wrapper_in Scenario.env Scenario.bound_globals
               (Scenario.raising Scenario.create_project_failed)
               Scenario.ready in
  fst run
  = Ok {| identifier := None; splash_url := None; pdf_url := None;
          logs := Some ("Message: Unable to create a project on OSF." ++ nl);
          status := "failed";
          message := Some "Unable to create a project on OSF.";
          oairecord := None; additional_info := [] |}
  /\ notifications (journal (snd run))
     = [ {| payload_name := "Ada Lovelace"; payload_repo := "OSF sandbox";
            payload_paperurl := "/paper/42/ Unable to create a project on OSF." |} ].
Proof. split; vm_compute; reflexivity. Qed.

Example bound_wrapper_masks_exception :
  let run := submit_deposit_wrapper_in Scenario.env Scenario.bound_globals
               (Scenario.raising Scenario.missing_key) Scenario.ready in
  fst run
  = Ok {| identifier := None; splash_url := None; pdf_url := None;
          logs := Some ("Caught exception:" ++ nl
                        ++ "<type 'exceptions.KeyError'>: 'data'" ++ nl
                        ++ "Traceback (most recent call last):" ++ nl
                        ++ "'data'" ++ nl ++ nl);
          status := "failed";
          message := Some "Failed to connect to the repository. Please try again later.";
          oairecord := None; additional_info := [] |}
  /\ notifications (journal (snd run)) = [].
Proof. split; vm_compute; reflexivity. Qed.

Example bound_wrapper_attaches_record :
  let r := Scenario.published (Some "https://test.osf.io/q7k2m")
             (Some "https://test.osf.io/w3xzp")
             (Some "https://test.osf.io/w3xzp/download") in
  let rec := {| rec_source := "osf";
                rec_identifier := "deposition:7:https://test.osf.io/q7k2m";
                rec_splash_url := Some "https://test.osf.io/w3xzp";
                rec_pdf_url := Some "https://test.osf.io/w3xzp/download" |} in
  let run := submit_deposit_wrapper_in Scenario.env Scenario.bound_globals
               (Scenario.returning r) Scenario.ready in
  fst run = Ok (set_result_oairecord (set_result_logs r (Some "")) (Some rec))
  /\ journal (snd run)
     = [ AddOaiRecord rec;
         Notify {| payload_name := "Ada Lovelace"; payload_repo := "OSF sandbox";
                   payload_paperurl := "/paper/42/" |} ].
Proof. split; vm_compute; reflexivity. Qed.

Example bound_wrapper_without_splash :
  let r := Scenario.published (Some "q7k2m") (Some "") None in
  let run := submit_deposit_wrapper_in Scenario.env Scenario.bound_globals
               (Scenario.returning r) Scenario.ready in
  fst run = Ok (set_result_logs r (Some ""))
  /\ attachments (journal (snd run)) = []
  /\ List.length (notifications (journal (snd run))) = 1.
Proof. repeat split; vm_compute; reflexivity. Qed.

(** C2 (what the code does). No call of the wrapper returns a
    [DepositResult]: each raises before the [try] statement is entered.
    With the URL resolver bound, an exception still leaves the wrapper
    when the callback raises while a [DepositError] is handled, and when
    [submit_deposit] raises an exception that is not an [Exception]. *)
Theorem wrapper_lets_exceptions_out :
  (forall env submit_deposit st,
     exists e, submit_deposit_wrapper env submit_deposit st = (Raise e, st))
  /\ fst (submit_deposit_wrapper_in
            (Scenario.env_with Scenario.failing_callback Scenario.server)
            Scenario.bound_globals
            (Scenario.raising Scenario.create_project_failed) Scenario.ready)
     = Raise (new_exn (OtherException "smtplib.SMTPException") "mail server down")
  /\ fst (submit_deposit_wrapper_in Scenario.env Scenario.bound_globals
            (Scenario.raising (new_exn KeyboardInterrupt "")) Scenario.ready)
     = Raise (new_exn KeyboardInterrupt "").
Proof.
  split; [|split; vm_compute; reflexivity].
  intros env sd st. eexists. apply wrapper_stops_at_reverse.
Qed.

(** C3 (what the code does). When [submit_deposit] raises
    [DepositError(X)], the wrapper returns no result: the NameError of the
    payload construction reaches the caller, and neither the log nor the
    journal has changed, so [X] was not logged. *)
Theorem wrapper_DepositError_lost :
  (forall env X st,
     let run := submit_deposit_wrapper env (raise (new_exn DepositError X)) st in
     (forall r, fst run <> Ok r) /\ snd run = st)
  /\ submit_deposit_wrapper Scenario.env
       (Scenario.raising Scenario.create_project_failed) Scenario.ready
     = (Raise (new_exn NameError "global name 'reverse' is not defined"),
        Scenario.ready).
Proof.
  split; [|reflexivity].
  intros env X st run. unfold run. rewrite wrapper_stops_at_reverse.
  split; [discriminate | reflexivity].
Qed.

(** C4 (what the code does). When [submit_deposit] raises any exception
    [e], the wrapper returns no result, hence no generic message, and the
    log is left as it was: the type and the text of [e] are not logged. *)
Theorem wrapper_exception_lost :
  (forall env e st,
     let run := submit_deposit_wrapper env (raise e) st in
     (forall r, fst run <> Ok r) /\ _logs (self (snd run)) = _logs (self st))
  /\ submit_deposit_wrapper Scenario.env
       (Scenario.raising Scenario.missing_key) Scenario.ready
     = (Raise (new_exn NameError "global name 'reverse' is not defined"),
        Scenario.ready).
Proof.
  split; [|reflexivity].
  intros env e st run. unfold run. rewrite wrapper_stops_at_reverse.
  split; [discriminate | reflexivity].
Qed.

(** C5 (what the code does). The wrapper never reaches a call of the
    notification callback; and with the URL resolver bound, the clause for
    the other exceptions returns without calling it. *)
Theorem wrapper_never_notifies :
  (forall env submit_deposit st,
     notifications (journal (snd (submit_deposit_wrapper env submit_deposit st)))
     = notifications (journal st))
  /\ notifications
       (journal (snd (submit_deposit_wrapper_in Scenario.env
                        Scenario.bound_globals
                        (Scenario.raising Scenario.missing_key) Scenario.ready)))
     = [].
Proof.
  split; [|vm_compute; reflexivity].
  intros env sd st. now rewrite wrapper_stops_at_reverse.
Qed.

(** C6 (what the code does). Whatever [submit_deposit] returns, with or
    without a splash URL, the wrapper builds no record, asks the paper
    for nothing and returns no result. *)
Theorem wrapper_attaches_nothing :
  (forall env r st,
     let run := submit_deposit_wrapper env (ret r) st in
     attachments (journal (snd run)) = attachments (journal st)
     /\ forall r', fst run <> Ok r')
  /\ submit_deposit_wrapper Scenario.env
       (Scenario.returning
          (Scenario.published (Some "https://test.osf.io/q7k2m")
             (Some "https://test.osf.io/w3xzp")
             (Some "https://test.osf.io/w3xzp/download")))
       Scenario.ready
     = (Raise (new_exn NameError "global name 'reverse' is not defined"),
        Scenario.ready).
Proof.
  split; [|reflexivity].
  intros env r st run. unfold run. rewrite wrapper_stops_at_reverse.
  split; [reflexivity | discriminate].
Qed.

(** * Further properties *)

(** ** More on tag normalisation *)

Lemma lstrip_spaces (l s : string) :
  PyStr.all PyStr.isspace l = true -> PyStr.lstrip (l ++ s) = PyStr.lstrip s.
Proof.
  induction l as [|c l IH]; simpl; [reflexivity|].
  destruct (PyStr.isspace c); simpl; [exact IH | discriminate].
Qed.

Lemma lstrip_fixed (s : string) :
  (forall c, PyStr.first s = Some c -> PyStr.isspace c = false) ->
  PyStr.lstrip s = s.
Proof.
  destruct s as [|c s]; simpl; [reflexivity|].
  intros H. now rewrite (H c eq_refl).
Qed.

Lemma rstrip_spaces (r : string) :
  PyStr.all PyStr.isspace r = true -> PyStr.rstrip r = EmptyString.
Proof.
  induction r as [|c r IH]; simpl; [reflexivity|].
  destruct (PyStr.isspace c); simpl; [|discriminate].
  intros H. now rewrite (IH H).
Qed.

Lemma last_cons (c : ascii) (s : string) :
  s <> EmptyString -> PyStr.last (String c s) = PyStr.last s.
Proof. destruct s; [congruence | reflexivity]. Qed.

Lemma rstrip_app (t r : string) :
  PyStr.all PyStr.isspace r = true ->
  (forall c, PyStr.last t = Some c -> PyStr.isspace c = false) ->
  PyStr.rstrip (t ++ r) = t.
Proof.
  intros Hr. induction t as [|c t IH]; intros Hl.
  - now apply rstrip_spaces.
  - change (String c t ++ r) with (String c (t ++ r)).
    cbn [PyStr.rstrip]. destruct t as [|d t].
    + simpl in *. rewrite (rstrip_spaces _ Hr). now rewrite (Hl c eq_refl).
    + rewrite IH.
      * reflexivity.
      * intros x Hx. apply Hl. exact Hx.
Qed.

(** Trimming is determined by the decomposition: what [strip] returns is
    the only trimmed form of a piece. *)
Lemma trimmed_strip (p t : string) : trimmed p t -> PyStr.strip p = t.
Proof.
  intros (l & r & -> & Hl & Hr & Hf & Hla). unfold PyStr.strip.
  rewrite lstrip_spaces by exact Hl.
  destruct t as [|c t].
  - simpl. rewrite all_space_lstrip by exact Hr. reflexivity.
  - rewrite lstrip_fixed.
    + now apply rstrip_app.
    + simpl. exact Hf.
Qed.

Lemma split_app_sep (sep : ascii) (p s : string) :
  PyStr.mem sep p = false ->
  PyStr.split sep (p ++ String sep s) = p :: PyStr.split sep s.
Proof.
  induction p as [|c p IH]; simpl.
  - now rewrite Ascii.eqb_refl.
  - intros H. apply orb_false_elim in H. destruct H as [Hc Hp].
    rewrite Hc, (IH Hp). reflexivity.
Qed.

Lemma split_no_sep_piece (sep : ascii) (p : string) :
  PyStr.mem sep p = false -> PyStr.split sep p = [p].
Proof.
  induction p as [|c p IH]; simpl; [reflexivity|].
  intros H. apply orb_false_elim in H. destruct H as [Hc Hp].
  now rewrite Hc, (IH Hp).
Qed.

(** [split] undoes [join] when no piece holds the separator. *)
Lemma split_join (sep : ascii) (pieces : list string) :
  pieces <> [] ->
  Forall (fun p => PyStr.mem sep p = false) pieces ->
  PyStr.split sep (PyStr.join sep pieces) = pieces.
Proof.
  induction pieces as [|p ps IH]; [congruence|].
  intros _ H. inversion H as [|? ? Hp Hps]; subst.
  destruct ps as [|q ps].
  - simpl. now apply split_no_sep_piece.
  - rewrite join_cons by discriminate.
    rewrite split_app_sep by exact Hp.
    rewrite IH; [reflexivity | discriminate | exact Hps].
Qed.

(** X1. The tags are determined by the submitted string: however it is
    cut at its commas into pieces, the tags [create_tags] returns are the
    trimmed forms of the pieces that are not blank, in order. *)
Theorem create_tags_determined (form : Form) (pieces tags : list string) :
  form_tags form = PyStr.join comma pieces ->
  Forall (fun p => PyStr.mem comma p = false) pieces ->
  Forall2 trimmed
    (filter (fun p => negb (PyStr.all PyStr.isspace p)) pieces) tags ->
  create_tags form = tags.
Proof.
  intros E Hc Ht. unfold create_tags. rewrite E.
  destruct pieces as [|p ps].
  - inversion Ht; subst. reflexivity.
  - rewrite split_join; [|discriminate|exact Hc].
    clear E Hc. revert tags Ht.
    induction (p :: ps) as [|x xs IH]; intros tags Ht.
    + inversion Ht; subst. reflexivity.
    + cbn [map filter] in *. rewrite strip_nonempty.
      destruct (negb (PyStr.all PyStr.isspace x)).
      * inversion Ht as [|? t ? ts Hx Hxs]; subst.
        rewrite (trimmed_strip Hx). now rewrite (IH ts Hxs).
      * now apply IH.
Qed.

Lemma create_tags_determined_witness :
  create_tags Midway.tags_form = ["a"; "b"; "c"].
Proof.
  apply (create_tags_determined Midway.tags_form
           (pieces := ["a"; " b "; ""; " c"])).
  - reflexivity.
  - repeat constructor.
  - cbn. repeat constructor.
    + exact (strip_trimmed "a").
    + exact (strip_trimmed " b ").
    + exact (strip_trimmed " c").
Defined.

(** ** The DOI lookup *)

(** X2. The DOI sent with the preprint is the DOI of the first record
    that has a non-empty one; it is never the empty string; and there is
    none exactly when every record lacks a DOI or has an empty one. *)
Theorem get_key_data_doi_first (records : list BibRecord) :
  (get_key_data_doi records = None
   <-> Forall (fun r => PyStr.truthy (doi r) = false) records)
  /\ (forall d, get_key_data_doi records = Some d ->
        d <> EmptyString
        /\ exists before r after,
             records = (before ++ r :: after)%list
             /\ doi r = Some d
             /\ Forall (fun r => PyStr.truthy (doi r) = false) before).
Proof.
  induction records as [|r rs [IHn IHs]]; simpl.
  - split; [split; [constructor | reflexivity] | discriminate].
  - destruct (doi r) as [d0|] eqn:Ed; simpl.
    + destruct d0 as [|c d0]; simpl.
      * split.
        -- rewrite IHn. split.
           ++ intros H. constructor; [now rewrite Ed | exact H].
           ++ intros H. now inversion H.
        -- intros d Hd. destruct (IHs d Hd) as (Hne & b & x & a & -> & Hx & Hb).
           split; [exact Hne|]. exists (r :: b), x, a.
           repeat split; [exact Hx|]. constructor; [now rewrite Ed | exact Hb].
      * split.
        -- split; [discriminate|]. intros H. inversion H as [|? ? Hr _]; subst.
           rewrite Ed in Hr. discriminate.
        -- intros d [= <-]. split; [discriminate|].
           exists [], r, rs. repeat split; [exact Ed | constructor].
    + split.
      * rewrite IHn. split.
        -- intros H. constructor; [now rewrite Ed | exact H].
        -- intros H. now inversion H.
      * intros d Hd. destruct (IHs d Hd) as (Hne & b & x & a & -> & Hx & Hb).
        split; [exact Hne|]. exists (r :: b), x, a.
        repeat split; [exact Hx|]. constructor; [now rewrite Ed | exact Hb].
Qed.

(** ** The request logger *)

Lemma contains_app_r (p a s : string) :
  PyStr.contains p s = true -> PyStr.contains p (a ++ s) = true.
Proof.
  intros H. induction a as [|c a IH]; [exact H|].
  simpl. rewrite IH. apply orb_true_r.
Qed.

Ltac find_in_log :=
  first [ apply (contains_middle EmptyString)
        | apply contains_app_r; find_in_log ].

Lemma state_logs_eq (p : protocol) (j : list event) (a b : string)
  (st : state) :
  st = {| self := set_logs (Some a) p; journal := j |} ->
  a = b ->
  st = {| self := set_logs (Some b) p; journal := j |}.
Proof. now intros -> ->. Qed.

Lemma log_request_accepts (r : response) (expected : Z) (msg l : string)
  (st : state) :
  _logs (self st) = Some l ->
  status_code r = expected ->
  log_request r expected msg st
  = (Ok tt,
     {| self := set_logs (Some (l ++ request_lines r expected)) (self st);
        journal := journal st |}).
Proof.
  intros Hl Hc. unfold log_request.
  erewrite bind_log by exact Hl. erewrite bind_log by reflexivity.
  rewrite Hc, Z.eqb_refl. cbn [negb]. unfold ret. f_equal.
  eapply state_logs_eq; [reflexivity|]. unfold request_lines. rewrite Hc.
  now rewrite !append_assoc.
Qed.

Lemma log_request_refuses (r : response) (expected : Z) (msg l : string)
  (st : state) :
  _logs (self st) = Some l ->
  status_code r <> expected ->
  log_request r expected msg st
  = (Raise (new_exn DepositError msg),
     {| self :=
          set_logs (Some (l ++ request_lines r expected ++ refusal_lines r))
            (self st);
        journal := journal st |}).
Proof.
  intros Hl Hc. unfold log_request.
  erewrite bind_log by exact Hl. erewrite bind_log by reflexivity.
  apply Z.eqb_neq in Hc. rewrite Hc. cbn [negb].
  erewrite bind_log by reflexivity. erewrite bind_log by reflexivity.
  erewrite bind_log by reflexivity. unfold raise. f_equal.
  eapply state_logs_eq; [reflexivity|]. unfold request_lines, refusal_lines.
  now rewrite !append_assoc.
Qed.

(** X3. [log_request] never touches the journal.  When the status code is
    the expected one it returns, having logged the URL and the two status
    codes; otherwise it raises [DepositError] with the given message,
    having logged in addition the body of the response. *)
Theorem log_request_gate (r : response) (expected : Z) (msg l : string)
  (st : state) :
  _logs (self st) = Some l ->
  let run := log_request r expected msg st in
  journal (snd run) = journal st
  /\ (status_code r = expected ->
      fst run = Ok tt
      /\ _logs (self (snd run)) = Some (l ++ request_lines r expected))
  /\ (status_code r <> expected ->
      fst run = Raise (new_exn DepositError msg)
      /\ _logs (self (snd run))
         = Some (l ++ request_lines r expected ++ refusal_lines r)
      /\ PyStr.contains (text r) (refusal_lines r) = true).
Proof.
  intros Hl run. unfold run.
  destruct (Z.eq_dec (status_code r) expected) as [E|N].
  - erewrite log_request_accepts; [|exact Hl|exact E]. cbn [fst snd journal self].
    split; [reflexivity|]. split; [now split | contradiction].
  - erewrite log_request_refuses; [|exact Hl|exact N]. cbn [fst snd journal self].
    split; [reflexivity|]. split; [contradiction|].
    intros _. repeat split. unfold refusal_lines. find_in_log.
Qed.

Lemma log_request_gate_witness :
  let r := Scenario.reply "https://test-api.osf.io/v2/nodes/" 400 (JDict []) in
  _logs (self Scenario.ready) = Some ""
  /\ fst (log_request r 201 "Unable to create a project on OSF." Scenario.ready)
     = Raise (new_exn DepositError "Unable to create a project on OSF.").
Proof.
  split; [reflexivity|].
  apply (log_request_gate
           (Scenario.reply "https://test-api.osf.io/v2/nodes/" 400 (JDict []))
           201 "Unable to create a project on OSF." Scenario.ready eq_refl).
  discriminate.
Defined.

(** ** Preconditions of an OSF deposit *)

(** X4. Without an endpoint (none, or the empty string) and without an
    API key, [submit_deposit] raises a [DepositError] that says so, and
    leaves the instance and the journal untouched: nothing is logged, no
    request is sent. *)
Theorem submit_deposit_needs_configuration (env : environment) (pdf : string)
  (form : Form) (st : state) :
  (PyStr.truthy (api_url (self st)) = false ->
   submit_deposit env pdf form st
   = (Raise (new_exn DepositError
               (ugettext env "No Repository endpoint provided.")), st))
  /\ (PyStr.truthy (api_url (self st)) = true ->
      api_key (repository (self st)) = None ->
      submit_deposit env pdf form st
      = (Raise (new_exn DepositError (ugettext env "No OSF token provided.")),
         st)).
Proof.
  unfold submit_deposit. rewrite bind_gets. split.
  - intros ->. reflexivity.
  - intros -> H. cbn [negb]. rewrite bind_gets, H. reflexivity.
Qed.

(** X13. On a configured instance for which [init_deposit] was not called
    (no paper bound), [submit_deposit] raises AttributeError before it
    logs anything or sends any request. *)
Theorem submit_deposit_needs_init_deposit (env : environment) (pdf : string)
  (form : Form) (st : state) (key : string) :
  PyStr.truthy (api_url (self st)) = true ->
  api_key (repository (self st)) = Some key ->
  paper (self st) = None ->
  let run := submit_deposit env pdf form st in
  fst run = Raise (new_exn AttributeError "json")
  /\ journal (snd run) = journal st
  /\ _logs (self (snd run)) = _logs (self st).
Proof.
  intros Ha Hk Hp run. unfold run, submit_deposit.
  rewrite bind_gets, Ha. cbn [negb]. rewrite bind_gets, Hk.
  unfold bind at 1. unfold modify at 1. cbv beta iota.
  unfold get_primary_data, attr, bind, gets, raise. simpl. rewrite Hp.
  simpl. repeat split.
Qed.

Lemma submit_deposit_needs_init_deposit_witness :
  let st := {| self := OSFProtocol_init Scenario.repo; journal := [] |} in
  fst (submit_deposit Scenario.env "article.pdf"
         (Scenario.form_with Scenario.cc_by) st)
  = Raise (new_exn AttributeError "json").
Proof.
  apply (submit_deposit_needs_init_deposit Scenario.env "article.pdf"
           (Scenario.form_with Scenario.cc_by)
           {| self := OSFProtocol_init Scenario.repo; journal := [] |}
           (key := "s3cr3t")); reflexivity.
Defined.

Lemma append_empty_r (s : string) : s ++ "" = s.
Proof. induction s as [|c s IH]; simpl; [reflexivity | now rewrite IH]. Qed.

(** ** Creating the node *)

Lemma bind_lift {A B} (a : A) (k : A -> M B) st :
  bind (lift (Ok a)) k st = k a st.
Proof. reflexivity. Qed.

Lemma bind_modify {B} (g : protocol -> protocol) (k : unit -> M B) st :
  bind (modify g) k st = k tt {| self := g (self st); journal := journal st |}.
Proof. reflexivity. Qed.

Lemma bind_bind {A B C} (m : M A) (f : A -> M B) (g : B -> M C) st :
  bind (bind m f) g st = bind m (fun a => bind (f a) g) st.
Proof. unfold bind. destruct (m st) as [[a|e] st1]; reflexivity. Qed.

Lemma bind_eq_Ok {A B} (m : M A) (k : A -> M B) st a st' :
  m st = (Ok a, st') -> bind m k st = k a st'.
Proof. intros H. unfold bind. now rewrite H. Qed.

Lemma bind_eq_Raise {A B} (m : M A) (k : A -> M B) st e st' :
  m st = (Raise e, st') -> bind m k st = (Raise e, st').
Proof. intros H. unfold bind. now rewrite H. Qed.

Section CreateNode.

Variable env : environment.
Variables (abstract : string) (tags : list string) (authors : list Author).
Variable st : state.
Variables (pa : Paper) (l api : string) (h : list (string * string)).
Variable r : response.

Hypothesis bound_paper : paper (self st) = Some pa.
Hypothesis log_started : _logs (self st) = Some l.
Hypothesis endpoint_set : api_url (self st) = Some api.
Hypothesis headers_set : headers (self st) = Some h.
Hypothesis answered :
  requests_send env (journal st)
    (create_node_request env api h (title pa) abstract tags) = Ok r.

Lemma create_node_until_reply :
  exists l2,
    create_node env abstract tags authors st
    = bind (log_request r 201 (ugettext env "Unable to create a project on OSF."))
        (fun _ =>
           bind (response_json r) (fun osf_response =>
           bind (lift (getitem osf_response "data")) (fun d =>
           bind (lift (getitem d "id")) (fun i => modify (set_node_id i)))))
        {| self := set_logs (Some l2) (self st);
           journal := (journal st
                       ++ [Http (create_node_request env api h (title pa)
                                   abstract tags)])%list |}.
Proof.
  unfold create_node.
  erewrite bind_attr by exact bound_paper.
  erewrite bind_log by exact log_started.
  erewrite bind_log by reflexivity. erewrite bind_log by reflexivity.
  rewrite bind_gets. cbn [self api_url set_logs]. rewrite endpoint_set.
  cbn [concat_attr]. rewrite bind_ret.
  erewrite bind_attr by exact headers_set.
  unfold send. rewrite bind_bind, bind_history, bind_bind, bind_emit.
  cbn [journal self]. fold (create_node_request env api h (title pa) abstract tags).
  rewrite answered, bind_lift.
  eexists. reflexivity.
Qed.

(** X9. Once [create_node] has sent its request and got an answer, exactly
    that request was added to the journal.  An answer other than 201
    raises the [DepositError] of this step, and an answer 201 that is not
    JSON raises ValueError, both leaving [node_id] as it was; an answer 201
    with an id under "data" stores that id in [node_id]. *)
Theorem create_node_outcome :
  let run := create_node env abstract tags authors st in
  journal (snd run)
  = (journal st
     ++ [Http (create_node_request env api h (title pa) abstract tags)])%list
  /\ (status_code r <> 201%Z ->
      fst run
      = Raise (new_exn DepositError
                 (ugettext env "Unable to create a project on OSF."))
      /\ node_id (self (snd run)) = node_id (self st))
  /\ (status_code r = 201%Z -> json_body r = None ->
      fst run = Raise (new_exn ValueError "No JSON object could be decoded")
      /\ node_id (self (snd run)) = node_id (self st))
  /\ (status_code r = 201%Z ->
      forall body d i,
        json_body r = Some body ->
        getitem body "data" = Ok d ->
        getitem d "id" = Ok i ->
        fst run = Ok tt /\ node_id (self (snd run)) = Some i).
Proof.
  destruct create_node_until_reply as (l2 & E). cbv zeta. rewrite E. clear E.
  destruct (Z.eq_dec (status_code r) 201) as [C|C].
  - erewrite bind_eq_Ok
      by (apply log_request_accepts; [reflexivity | exact C]).
    unfold response_json.
    split; [|split; [contradiction|split]].
    + destruct (json_body r) as [body|]; [|reflexivity].
      rewrite bind_ret. unfold bind, lift.
      destruct (getitem body "data") as [d|]; [|reflexivity].
      destruct (getitem d "id"); reflexivity.
    + intros _ ->. split; reflexivity.
    + intros _ body d i -> Hd Hi. rewrite bind_ret.
      unfold bind, lift. rewrite Hd, Hi. split; reflexivity.
  - erewrite bind_eq_Raise
      by (apply log_request_refuses; [reflexivity | exact C]).
    split; [reflexivity|]. split; [intros _; split; reflexivity|].
    split; intros; contradiction.
Qed.

End CreateNode.

(** ** More on the [try] statement of the wrapper *)

(** X11. Whenever the [try] statement of the wrapper returns a result,
    on any of its paths, the log on the result is the log of the
    instance at that moment. *)
Theorem try_result_carries_log (env : environment)
  (submit_deposit : M DepositResult) (payload : Payload) (st : state)
  (r : DepositResult) :
  fst (wrapper_try env submit_deposit payload st) = Ok r ->
  logs r = _logs (self (snd (wrapper_try env submit_deposit payload st))).
Proof.
  unfold wrapper_try, try_except, bind.
  destruct (submit_deposit st) as [[r0|e] st1].
  - unfold gets, paper_add_oairecord, attr, bind, gets, ret, raise, notify,
      bind, emit, lift, args0, log, bind, gets, modify, raise, ret,
      DepositResult_init.
    cbn [fst snd self journal].
    repeat match goal with
           | |- context [match ?x with _ => _ end] =>
               lazymatch x with
               | context [match _ with _ => _ end] => fail
               | _ => destruct x eqn:?
               end; cbn [fst snd self journal _logs set_logs logs
                           set_result_logs set_result_oairecord] in *
           end;
      try discriminate; intros [= <-]; try reflexivity.
    all: cbn [logs set_result_logs set_result_oairecord]; congruence.
  - unfold args0, log, bind, gets, modify, raise, ret, notify, bind, emit,
      lift, DepositResult_init.
    cbn [fst snd self journal].
    repeat match goal with
           | |- context [match ?x with _ => _ end] =>
               lazymatch x with
               | context [match _ with _ => _ end] => fail
               | _ => destruct x eqn:?
               end; cbn [fst snd self journal _logs set_logs logs] in *
           end;
      try discriminate; intros [= <-]; try reflexivity.
    all: cbn [logs]; congruence.
Qed.

Lemma notifications_app (a b : list event) :
  notifications (a ++ b) = (notifications a ++ notifications b)%list.
Proof.
  induction a as [|ev a IH]; [reflexivity|].
  destruct ev; simpl; now rewrite IH.
Qed.

Lemma attachments_app (a b : list event) :
  attachments (a ++ b) = (attachments a ++ attachments b)%list.
Proof.
  induction a as [|ev a IH]; [reflexivity|].
  destruct ev; simpl; now rewrite IH.
Qed.

(** X12. When the deposit succeeded and its record was attached to the
    paper, but the notification callback raises an [Exception] whose text
    and stack trace are ASCII, the [try] statement reports a failure: the
    result is 'failed' with the generic message and refers to no record,
    although the record was attached and the callback was called. *)
Theorem try_callback_failure_masks_success (env : environment)
  (submit_deposit : M DepositResult) (payload : Payload) (st st1 : state)
  (r : DepositResult) (pa : Paper) (attached : BareOaiRecord) (e : exn)
  (l : string) :
  submit_deposit st = (Ok r, st1) ->
  PyStr.truthy (splash_url r) = true ->
  paper (self st1) = Some pa ->
  _logs (self st1) = Some l ->
  let repo := repository (self st1) in
  let rec := {| rec_source := oaisource repo;
                rec_identifier :=
                  "deposition:" ++ PyStr.of_Z (repository_id repo) ++ ":"
                  ++ unicode_opt (identifier r);
                rec_splash_url := splash_url r;
                rec_pdf_url := pdf_url r |} in
  add_oairecord env pa rec = Ok attached ->
  DEPOSIT_NOTIFICATION_CALLBACK env payload = Raise e ->
  is_DepositError e = false ->
  is_Exception e = true ->
  PyStr.is_ascii (exn_str e) = true ->
  PyStr.is_ascii (format_exc env e) = true ->
  In "failed" (map fst (DEPOSIT_STATUS_CHOICES env)) ->
  let run := wrapper_try env submit_deposit payload st in
  (exists r', fst run = Ok r'
              /\ status r' = "failed"
              /\ message r' = Some (ugettext env GENERIC_MESSAGE)
              /\ oairecord r' = None
              /\ identifier r' = None)
  /\ attachments (journal (snd run))
     = (attachments (journal st1) ++ [rec])%list
  /\ notifications (journal (snd run))
     = (notifications (journal st1) ++ [payload])%list.
Proof.
  intros Hs Ht Hp Hl repo rec Ha Hc Hd He Hx Hb Hf run.
  assert (E : run
              = (Ok {| identifier := None; splash_url := None; pdf_url := None;
                       logs := Some (((l ++ "Caught exception:" ++ nl)
                                      ++ (type_repr e ++ ": " ++ exn_str e ++ "")
                                      ++ nl) ++ format_exc env e ++ nl);
                       status := "failed";
                       message := Some (ugettext env GENERIC_MESSAGE);
                       oairecord := None; additional_info := [] |},
                 {| self := set_logs
                              (Some (((l ++ "Caught exception:" ++ nl)
                                      ++ (type_repr e ++ ": " ++ exn_str e ++ "")
                                      ++ nl) ++ format_exc env e ++ nl))
                              (self st1);
                    journal := ((journal st1 ++ [AddOaiRecord rec])
                                ++ [Notify payload])%list |})).
  { unfold run, wrapper_try, try_except, bind. rewrite Hs.
    unfold gets. cbn [fst snd]. cbn [splash_url set_result_logs]. rewrite Ht.
    unfold paper_add_oairecord, attr, bind, gets, ret, emit, lift, notify,
      bind, emit, lift.
    cbn [fst snd self journal]. rewrite Hp. unfold rec, repo in Ha.
    cbn [identifier pdf_url splash_url set_result_logs].
    rewrite Ha, Hc, Hd, He.
    unfold str_of_exn, log_bytes. rewrite Hx, Hb.
    unfold log, bind, gets, modify, ret. cbn [fst snd self journal]. rewrite Hl.
    cbn [fst snd self journal _logs set_logs].
    unfold DepositResult_init. rewrite (failed_accepted env Hf). reflexivity. }
  rewrite E. cbn [fst snd journal].
  split; [eexists; repeat split|].
  rewrite !attachments_app, !notifications_app. cbn.
  now rewrite !app_nil_r.
Qed.

Lemma try_callback_failure_masks_success_witness :
  let r := Scenario.published (Some "https://test.osf.io/q7k2m")
             (Some "https://test.osf.io/w3xzp")
             (Some "https://test.osf.io/w3xzp/download") in
  let payload := {| payload_name := "Ada Lovelace"; payload_repo := "OSF sandbox";
                    payload_paperurl := "/paper/42/" |} in
  let run := wrapper_try (Scenario.env_with Scenario.failing_callback Scenario.server)
               (Scenario.returning r) payload Scenario.ready in
  exists r', fst run = Ok r' /\ status r' = "failed"
             /\ message r' = Some GENERIC_MESSAGE
             /\ oairecord r' = None /\ identifier r' = None.
Proof.
  cbv zeta.
  refine (proj1 (try_callback_failure_masks_success
                   (Scenario.env_with Scenario.failing_callback Scenario.server)
                   (Scenario.returning
                      (Scenario.published (Some "https://test.osf.io/q7k2m")
                         (Some "https://test.osf.io/w3xzp")
                         (Some "https://test.osf.io/w3xzp/download")))
                   _ Scenario.ready
                   (st1 := Scenario.ready) (pa := Scenario.the_paper)
                   (l := "") eq_refl eq_refl eq_refl eq_refl eq_refl eq_refl
                   eq_refl eq_refl eq_refl eq_refl _)).
  simpl. auto.
Defined.

(** ** Ordered traces: rules *)

Section Traces.

Variable L : Type.
Variable view : event -> list L.
Variable inv : protocol -> Prop.

Lemma traces_bind {A B} (m : M A) (k : A -> M B) (f1 f2 : list L)
  (R1 : A -> Prop) (R2 : B -> Prop) :
  traces view inv m f1 R1 ->
  (forall a, R1 a -> traces view inv (k a) f2 R2) ->
  traces view inv (bind m k) (f1 ++ f2)%list R2.
Proof.
  intros Hm Hk st Hinv. destruct (Hm st Hinv) as (Hi & evs & Ej & Ho).
  unfold bind. destruct (m st) as [[a|e] st1]; cbn [fst snd] in *.
  - destruct Ho as [Ef Ha].
    destruct (Hk a Ha st1 Hi) as (Hi' & evs' & Ej' & Ho').
    split; [exact Hi'|]. exists (evs ++ evs')%list.
    split; [now rewrite Ej', Ej, app_assoc|].
    rewrite flat_map_app, Ef.
    destruct (fst (k a st1)).
    + destruct Ho' as [-> Hr]. now split.
    + destruct Ho' as (rest & ->). exists rest. now rewrite app_assoc.
  - split; [exact Hi|]. exists evs. split; [exact Ej|].
    destruct Ho as (rest & ->). exists (rest ++ f2)%list. now rewrite app_assoc.
Qed.

Lemma traces_bind_quiet {A B} (m : M A) (k : A -> M B) (full : list L)
  (R1 : A -> Prop) (R2 : B -> Prop) :
  traces view inv m [] R1 ->
  (forall a, R1 a -> traces view inv (k a) full R2) ->
  traces view inv (bind m k) full R2.
Proof.
  intros Hm Hk. change full with ([] ++ full)%list.
  eapply traces_bind; [exact Hm | exact Hk].
Qed.

Lemma traces_bind_cons {A B} (m : M A) (k : A -> M B) (x : L)
  (rest : list L) (R1 : A -> Prop) (R2 : B -> Prop) :
  traces view inv m [x] R1 ->
  (forall a, R1 a -> traces view inv (k a) rest R2) ->
  traces view inv (bind m k) (x :: rest) R2.
Proof.
  intros Hm Hk. change (x :: rest) with ([x] ++ rest)%list.
  eapply traces_bind; [exact Hm | exact Hk].
Qed.

Lemma traces_weaken {A} (m : M A) (full : list L) (R S : A -> Prop) :
  traces view inv m full R -> (forall a, R a -> S a) ->
  traces view inv m full S.
Proof.
  intros H HRS st Hinv. destruct (H st Hinv) as (Hi & evs & Ej & Ho).
  split; [exact Hi|]. exists evs. split; [exact Ej|].
  destruct (fst (m st)); [|exact Ho]. destruct Ho. split; auto.
Qed.

(** A step that leaves the journal alone. *)
Lemma traces_quiet {A} (m : M A) (R : A -> Prop) :
  (forall st, inv (self st) ->
     inv (self (snd (m st)))
     /\ journal (snd (m st)) = journal st
     /\ forall a, fst (m st) = Ok a -> R a) ->
  traces view inv m [] R.
Proof.
  intros H st Hinv. destruct (H st Hinv) as (Hi & Ej & Hr).
  split; [exact Hi|]. exists []. split; [now rewrite app_nil_r|].
  destruct (fst (m st)) as [a|e]; [now split; [|apply Hr] | now exists []].
Qed.

Lemma traces_raise {A} (e : exn) (full : list L) (R : A -> Prop) :
  traces view inv (raise e) full R.
Proof.
  intros st Hinv. split; [exact Hinv|]. exists [].
  split; [now rewrite app_nil_r | now exists full].
Qed.

Lemma traces_ret {A} (a : A) : traces view inv (ret a) [] (fun b => b = a).
Proof. apply traces_quiet. intros st Hi. repeat split; [exact Hi|]. now intros b [= <-]. Qed.

Lemma traces_lift {A} (o : outcome A) :
  traces view inv (lift o) [] (fun a => o = Ok a).
Proof.
  apply traces_quiet. intros st Hi. unfold lift. cbn [fst snd].
  repeat split; [exact Hi|]. now intros a ->.
Qed.

Lemma traces_gets {A} (f : protocol -> A) :
  traces view inv (gets f) [] (fun a => exists p, inv p /\ a = f p).
Proof.
  apply traces_quiet. intros st Hi. repeat split; [exact Hi|].
  intros a [= <-]. now exists (self st).
Qed.

Lemma traces_attr {A} name (f : protocol -> option A) :
  traces view inv (attr name f) [] (fun a => exists p, inv p /\ f p = Some a).
Proof.
  apply traces_quiet. intros st Hi. unfold attr, bind, gets, ret, raise.
  cbn [fst snd]. destruct (f (self st)) eqn:E; cbn [fst snd].
  - repeat split; [exact Hi|]. intros b [= <-]. now exists (self st).
  - repeat split; [exact Hi | discriminate].
Qed.

Lemma traces_modify (g : protocol -> protocol) :
  (forall p, inv p -> inv (g p)) ->
  traces view inv (modify g) [] (fun _ => True).
Proof.
  intros Hg. apply traces_quiet. intros st Hi.
  repeat split. now apply Hg.
Qed.

Lemma traces_history : traces view inv history [] (fun _ => True).
Proof. apply traces_quiet. intros st Hi. now repeat split. Qed.

Lemma traces_emit (ev : event) :
  traces view inv (emit ev) (view ev) (fun _ => True).
Proof.
  intros st Hi. split; [exact Hi|]. exists [ev]. split; [reflexivity|].
  cbn. now rewrite app_nil_r.
Qed.

Lemma traces_as_str (v : json) :
  traces view inv (as_str v) [] (fun s => v = JStr s).
Proof.
  destruct v; try apply traces_raise.
  eapply traces_weaken; [apply traces_ret|]. now intros ? ->.
Qed.

Lemma traces_concat_attr (a : option string) (b : string) :
  traces view inv (concat_attr a b) []
    (fun u => exists a', a = Some a' /\ u = a' ++ b).
Proof.
  destruct a as [a'|]; [|apply traces_raise].
  eapply traces_weaken; [apply traces_ret|]. intros ? ->. now exists a'.
Qed.

Lemma traces_response_json (r : response) :
  traces view inv (response_json r) [] (fun j => json_body r = Some j).
Proof.
  unfold response_json. destruct (json_body r); [|apply traces_raise].
  eapply traces_weaken; [apply traces_ret|]. now intros ? ->.
Qed.

Lemma traces_iterate (v : json) : traces view inv (iterate v) [] (fun _ => True).
Proof.
  destruct v; try apply traces_raise;
    (eapply traces_weaken; [apply traces_ret | auto]).
Qed.

Lemma traces_slice_from_1 (v : json) :
  traces view inv (slice_from_1 v) [] (fun _ => True).
Proof.
  destruct v; try apply traces_raise;
    (eapply traces_weaken; [apply traces_ret | auto]).
Qed.

Lemma traces_link_of_entry (v : json) :
  traces view inv (link_of_entry v) [] (fun _ => True).
Proof.
  unfold link_of_entry, translate_links.
  eapply traces_bind_quiet.
  { eapply traces_bind_quiet with (R2 := fun _ => True);
      [apply traces_lift | intros l _].
    eapply traces_weaken; [apply traces_lift | auto]. }
  intros l _. destruct (hashable l); [|apply traces_raise].
  eapply traces_weaken; [apply traces_ret | auto].
Qed.

Lemma traces_map_M {A B} (f : A -> M B) (l : list A) :
  (forall a, traces view inv (f a) [] (fun _ => True)) ->
  traces view inv (map_M f l) [] (fun _ => True).
Proof.
  intros Hf. induction l as [|a l IH]; cbn [map_M].
  - eapply traces_weaken; [apply traces_ret | auto].
  - eapply traces_bind_quiet; [apply Hf | intros b _].
    eapply traces_bind_quiet; [apply IH | intros bs _].
    eapply traces_weaken; [apply traces_ret | auto].
Qed.

Lemma traces_for_each {A} (f : A -> M unit) (g : A -> list L) (l : list A) :
  (forall a, traces view inv (f a) (g a) (fun _ => True)) ->
  traces view inv (for_each l f) (flat_map g l) (fun _ => True).
Proof.
  intros Hf. induction l as [|a l IH]; cbn [for_each flat_map].
  - eapply traces_weaken; [apply traces_ret | auto].
  - eapply traces_bind; [apply Hf | intros _ _; exact IH].
Qed.

Lemma traces_send (env : environment) (m : http_method) (url : string)
  (data : body) (h : list (string * string)) :
  traces view inv (send env m url data h)
    (view (Http {| req_method := m; req_url := url; req_data := data;
                   req_headers := h |}))
    (fun _ => True).
Proof.
  unfold send.
  eapply traces_bind_quiet; [apply traces_history | intros past _].
  rewrite <- (app_nil_r (view _)).
  eapply traces_bind; [apply traces_emit | intros _ _].
  eapply traces_weaken; [apply traces_lift | auto].
Qed.

(** The invariant survives a line added to the log. *)
Hypothesis inv_log :
  forall p l line, inv p -> _logs p = Some l ->
                   inv (set_logs (Some (l ++ line ++ nl)) p).

Lemma traces_log (line : string) :
  traces view inv (log line) [] (fun _ => True).
Proof.
  apply traces_quiet. intros st Hi. unfold log, bind, gets, modify, raise.
  cbn [fst snd]. destruct (_logs (self st)) as [l|] eqn:E; cbn [fst snd self journal].
  - split; [now apply inv_log|]. split; [reflexivity | intros; exact I].
  - split; [exact Hi|]. split; [reflexivity | discriminate].
Qed.

Lemma traces_log_request (r : response) (code : Z) (msg : string) :
  traces view inv (log_request r code msg) []
    (fun _ => status_code r = code).
Proof.
  unfold log_request.
  eapply traces_bind_quiet; [apply traces_log | intros _ _].
  eapply traces_bind_quiet; [apply traces_log | intros _ _].
  destruct (Z.eqb (status_code r) code) eqn:E; cbn [negb].
  - eapply traces_weaken; [apply traces_ret|]. intros _ _.
    now apply Z.eqb_eq.
  - repeat (eapply traces_bind_quiet; [apply traces_log | intros _ _]).
    apply traces_raise.
Qed.

End Traces.

Ltac traces_prim :=
  first
    [ apply traces_raise
    | apply traces_ret
    | apply traces_lift
    | apply traces_gets
    | apply traces_attr
    | apply traces_history
    | apply traces_as_str
    | apply traces_concat_attr
    | apply traces_response_json
    | apply traces_iterate
    | apply traces_slice_from_1
    | apply traces_map_M; intros ?; apply traces_link_of_entry
    | apply traces_log; assumption
    | apply traces_log_request; assumption
    | apply traces_modify; assumption ].

Ltac quiet_step :=
  lazymatch goal with
  | |- traces _ _ (bind _ _) _ _ =>
      eapply traces_bind_quiet; [traces_prim | intros ? ?]
  end.

Ltac send_step :=
  lazymatch goal with
  | |- traces _ _ (bind (send _ _ _ _ _) _) _ _ =>
      eapply traces_bind_cons; [apply traces_send | intros ? ?]
  end.

Ltac last_step := eapply traces_weaken; [traces_prim | auto].

(** ** The order of the requests *)

Section RequestOrder.

Variable env : environment.
Variable inv : protocol -> Prop.

Hypothesis inv_log :
  forall p l line, inv p -> _logs p = Some l ->
                   inv (set_logs (Some (l ++ line ++ nl)) p).
Hypothesis inv_headers : forall h p, inv p -> inv (set_headers h p).
Hypothesis inv_node_id : forall n p, inv p -> inv (set_node_id n p).
Hypothesis inv_storage_url : forall u p, inv p -> inv (set_storage_url u p).

Lemma create_node_order abstract tags authors :
  traces step_view inv (create_node env abstract tags authors) [Req POST]
    (fun _ => True).
Proof.
  unfold create_node. repeat quiet_step. send_step. repeat quiet_step.
  apply traces_modify. apply inv_node_id.
Qed.

Lemma get_newnode_osf_storage_order :
  traces step_view inv (get_newnode_osf_storage env) [Req GET] (fun _ => True).
Proof.
  unfold get_newnode_osf_storage. repeat quiet_step.
  eapply traces_bind_quiet;
    [apply traces_modify; apply inv_storage_url | intros ? ?].
  repeat quiet_step. send_step. repeat quiet_step. last_step.
Qed.

Lemma add_contributors_order authors :
  traces step_view inv (add_contributors env authors)
    (repeat (Req POST) (List.length authors)) (fun _ => True).
Proof.
  unfold add_contributors. repeat quiet_step.
  replace (repeat (Req POST) (List.length authors))
    with (flat_map (fun _ : Author => [Req POST]) authors)
    by (induction authors; simpl; congruence).
  apply traces_for_each. intros author. cbv beta.
  repeat quiet_step. send_step. last_step.
Qed.

Lemma license_block_quiet lic nl year names :
  traces step_view inv (license_block lic nl year names) [] (fun _ => True).
Proof.
  unfold license_block. destruct (String.eqb lic nl).
  - destruct year; [last_step | apply traces_raise].
  - last_step.
Qed.

Lemma create_license_order authors :
  traces step_view inv (create_license env authors) [Req PATCH] (fun _ => True).
Proof.
  unfold create_license. repeat quiet_step.
  eapply traces_bind_quiet; [apply license_block_quiet | intros ? ?].
  repeat quiet_step. send_step. repeat quiet_step. last_step.
Qed.

Lemma create_preprint_order pf_path records :
  traces step_view inv (create_preprint env pf_path records) [Req POST]
    (fun _ => True).
Proof.
  unfold create_preprint. repeat quiet_step. send_step. repeat quiet_step.
  last_step.
Qed.

Lemma update_preprint_license_order authors preprint_id :
  traces step_view inv (update_preprint_license env authors preprint_id)
    [Req PATCH] (fun _ => True).
Proof.
  unfold update_preprint_license. repeat quiet_step.
  eapply traces_bind_quiet; [apply license_block_quiet | intros ? ?].
  repeat quiet_step. send_step. repeat quiet_step. last_step.
Qed.

Hypothesis inv_license_id : forall l p, inv p -> inv (set_license_id l p).
Hypothesis inv_pub_date : forall d p, inv p -> inv (set_pub_date d p).

Variable pa : Paper.
Hypothesis inv_paper : forall p, inv p -> paper p = Some pa.

Lemma get_primary_data_quiet (form : Form) :
  traces step_view inv (get_primary_data form) [] (fun r => fst r = pa).
Proof.
  unfold get_primary_data.
  eapply traces_bind_quiet; [apply traces_attr | intros pa' (p & Hi & Hp)].
  eapply traces_weaken; [apply traces_ret|]. intros r ->. cbn [fst].
  apply inv_paper in Hi. congruence.
Qed.

Lemma submit_deposit_order (pdf : string) (form : Form) :
  traces step_view inv (submit_deposit env pdf form)
    (deposit_steps (List.length (authors pa))) (fun _ => True).
Proof.
  unfold submit_deposit, deposit_steps.
  eapply traces_bind_quiet; [apply traces_gets | intros api _].
  destruct (negb (PyStr.truthy api)); [apply traces_raise|].
  eapply traces_bind_quiet; [apply traces_gets | intros repo _].
  destruct (api_key repo) as [key|]; [|apply traces_raise].
  eapply traces_bind_quiet;
    [apply traces_modify; apply inv_license_id | intros _ _].
  eapply traces_bind_quiet; [apply get_primary_data_quiet | intros r ->].
  eapply traces_bind_quiet;
    [apply traces_modify; apply inv_pub_date | intros _ _].
  eapply traces_bind_quiet; [apply traces_lift | intros deposit_result _].
  eapply traces_bind_quiet;
    [apply traces_modify; apply inv_headers | intros _ _].
  eapply traces_bind_cons; [now apply create_node_order | intros _ _].
  repeat quiet_step.
  eapply traces_bind_cons;
    [now apply get_newnode_osf_storage_order | intros ? ?].
  repeat quiet_step.
  eapply traces_bind_cons;
    [exact (traces_emit step_view inv (OpenFile pdf)) | intros ? ?].
  repeat quiet_step. send_step. repeat quiet_step.
  eapply traces_bind; [now apply add_contributors_order | intros ? ?].
  eapply traces_bind_cons; [now apply create_license_order | intros ? ?].
  eapply traces_bind_cons; [now apply create_preprint_order | intros ? ?].
  repeat quiet_step.
  eapply traces_bind_cons;
    [now apply update_preprint_license_order | intros ? ?].
  repeat quiet_step. last_step.
Qed.

End RequestOrder.

Lemma step_view_map (evs : list event) :
  flat_map step_view evs = map step_of evs.
Proof.
  induction evs as [|ev evs IH]; [reflexivity|].
  simpl. now rewrite IH.
Qed.

Lemma request_view_sent (evs : list event) :
  flat_map request_view evs = sent evs.
Proof.
  induction evs as [|ev evs IH]; [reflexivity|].
  destruct ev; simpl; now rewrite IH.
Qed.

(** X5. The events of an OSF deposit come in one order: node POST,
    storage GET, opening of the PDF, upload PUT, one contributor POST per
    author, node license PATCH, preprint POST, preprint license PATCH.  A
    run that returns went through all of them; a run that raises went
    through a prefix of them.  No record is attached and no notification
    is sent from within [submit_deposit]. *)
Theorem deposit_requests_in_order (env : environment) (pdf : string)
  (form : Form) (st : state) (pa : Paper) :
  paper (self st) = Some pa ->
  let run := submit_deposit env pdf form st in
  exists evs,
    journal (snd run) = (journal st ++ evs)%list
    /\ (forall r, fst run = Ok r ->
          map step_of evs = deposit_steps (List.length (authors pa)))
    /\ (forall e, fst run = Raise e ->
          exists rest,
            deposit_steps (List.length (authors pa))
            = (map step_of evs ++ rest)%list).
Proof.
  intros Hp run.
  destruct (@submit_deposit_order env (fun p => paper p = Some pa))
    with (pa := pa) (pdf := pdf) (form := form) (st := st)
    as (_ & evs & Ej & Ho); auto.
  exists evs. split; [exact Ej|]. fold run in Ho.
  rewrite step_view_map in Ho.
  split.
  - intros r E. rewrite E in Ho. apply Ho.
  - intros e E. rewrite E in Ho. exact Ho.
Qed.

Lemma deposit_requests_in_order_witness :
  exists evs,
    journal (snd (submit_deposit Scenario.env "article.pdf"
                    (Scenario.form_with Scenario.cc_by) Scenario.ready))
    = (journal Scenario.ready ++ evs)%list
    /\ map step_of evs
       = [Req POST; Req GET; Opened; Req PUT; Req POST; Req POST; Req POST;
          Req PATCH; Req POST; Req PATCH].
Proof.
  destruct (deposit_requests_in_order Scenario.env "article.pdf"
              (Scenario.form_with Scenario.cc_by) Scenario.ready
              (pa := Scenario.the_paper) eq_refl)
    as (evs & Ej & Hok & _).
  exists evs. split; [exact Ej|].
  exact (Hok (Scenario.published None None None) eq_refl).
Defined.

(** X6. The log is append-only during a deposit: whatever happens, what
    was logged before [submit_deposit] is a prefix of the log after it. *)
Theorem deposit_log_only_grows (env : environment) (pdf : string)
  (form : Form) (st : state) (l0 : string) :
  _logs (self st) = Some l0 ->
  exists l', _logs (self (snd (submit_deposit env pdf form st)))
             = Some (l0 ++ l').
Proof.
  intros Hl. destruct (paper (self st)) as [pa|] eqn:Hp.
  - set (inv := fun p => paper p = Some pa
                         /\ exists l', _logs p = Some (l0 ++ l')).
    assert (Hlog : forall p l line, inv p -> _logs p = Some l ->
                     inv (set_logs (Some (l ++ line ++ nl)) p)).
    { intros p l line [Hpa (l' & E)] El. split; [exact Hpa|].
      exists (l' ++ line ++ nl). cbn. rewrite El in E. injection E as ->.
      now rewrite append_assoc. }
    assert (T : traces step_view inv (submit_deposit env pdf form)
                  (deposit_steps (List.length (authors pa)))
                  (fun _ => True)).
    { apply submit_deposit_order; try exact Hlog;
        try (intros ? p Hi; exact Hi). now intros p [Hpa _]. }
    destruct (T st) as ((_ & Hgrow) & _); [|exact Hgrow].
    split; [exact Hp|]. exists "". now rewrite append_empty_r.
  - exists "". rewrite append_empty_r. rewrite <- Hl.
    unfold submit_deposit. rewrite bind_gets.
    destruct (negb (PyStr.truthy (api_url (self st)))); [reflexivity|].
    rewrite bind_gets.
    destruct (api_key (repository (self st))); [|reflexivity].
    rewrite bind_modify.
    unfold get_primary_data, attr, bind, gets, raise. cbn. rewrite Hp.
    reflexivity.
Qed.

(** ** The contributors *)

Section Contributors.

Variable env : environment.
Variables (api n : string) (h : list (string * string)).

Let inv (p : protocol) : Prop :=
  api_url p = Some api /\ node_id p = Some (JStr n) /\ headers p = Some h.

Lemma add_contributors_requests (authors : list Author) :
  traces request_view inv (add_contributors env authors)
    (map (contributor_request env api n h) authors) (fun _ => True).
Proof.
  assert (Hlog : forall p l line, inv p -> _logs p = Some l ->
                   inv (set_logs (Some (l ++ line ++ nl)) p))
    by (intros p l line Hi _; exact Hi).
  unfold add_contributors.
  eapply traces_bind_quiet;
    [apply traces_gets | intros a (p & (Ha & _) & ->)]. rewrite Ha.
  eapply traces_bind_quiet;
    [apply traces_concat_attr | intros u (a' & [= <-] & ->)].
  eapply traces_bind_quiet;
    [apply traces_attr | intros v (p' & (_ & Hn & _) & Hv)].
  assert (v = JStr n) by congruence. subst v.
  eapply traces_bind_quiet; [apply traces_as_str | intros ns [= <-]].
  replace (map (contributor_request env api n h) authors)
    with (flat_map (fun a => [contributor_request env api n h a]) authors)
    by (induction authors; simpl; congruence).
  apply traces_for_each. intros author. cbv beta.
  eapply traces_bind_quiet;
    [apply traces_attr | intros h' (p'' & (_ & _ & Hh) & Hh')].
  assert (h' = h) by congruence. subst h'.
  eapply traces_bind_cons; [apply traces_send | intros r _].
  eapply traces_weaken; [now apply traces_log_request | auto].
Qed.

End Contributors.


(** ** The headers of the requests *)

Ltac use_facts :=
  cbv beta in *;
  repeat match goal with
         | Hx : exists _, _ |- _ => destruct Hx
         | Hx : _ /\ _ |- _ => destruct Hx
         end.

Ltac header_prim :=
  first
    [ keeps_prim
    | apply keeps_log; intros ? ? Hx; exact Hx
    | apply keeps_log_request; intros ? ? Hx; exact Hx
    | apply keeps_emit; exact I
    | apply keeps_map_M; intros ?; apply keeps_link_of_entry
    | apply keeps_modify; intros ? Hx; exact Hx
    | apply keeps_send; use_facts; cbn; congruence ].

Ltac header_step :=
  lazymatch goal with
  | |- keeps _ _ (bind _ _) _ =>
      eapply keeps_bind; [header_prim | intros ? ?]
  end.

Ltac header_done := eapply keeps_weaken; [header_prim | auto].

Section Headers.

Variable env : environment.
Variable hs : list (string * string).

Let inv (p : protocol) : Prop := headers p = Some hs.
Let allowed := carries hs.

Lemma create_node_headers abstract tags authors :
  keeps allowed inv (create_node env abstract tags authors) (fun _ => True).
Proof. unfold create_node. repeat header_step. header_done. Qed.

Lemma get_newnode_osf_storage_headers :
  keeps allowed inv (get_newnode_osf_storage env) (fun _ => True).
Proof. unfold get_newnode_osf_storage. repeat header_step. header_done. Qed.

Lemma add_contributors_headers authors :
  keeps allowed inv (add_contributors env authors) (fun _ => True).
Proof.
  unfold add_contributors. repeat header_step.
  apply keeps_for_each. intros author; cbv beta.
  repeat header_step. header_done.
Qed.

Lemma license_block_headers lic nl year names :
  keeps allowed inv (license_block lic nl year names) (fun _ => True).
Proof.
  unfold license_block. destruct (String.eqb lic nl).
  - destruct year; [header_done | apply keeps_raise].
  - header_done.
Qed.

Lemma create_license_headers authors :
  keeps allowed inv (create_license env authors) (fun _ => True).
Proof.
  unfold create_license. repeat header_step.
  eapply keeps_bind; [apply license_block_headers | intros ? ?].
  repeat header_step. header_done.
Qed.

Lemma create_preprint_headers pf_path records :
  keeps allowed inv (create_preprint env pf_path records) (fun _ => True).
Proof. unfold create_preprint. repeat header_step. header_done. Qed.

Lemma update_preprint_license_headers authors preprint_id :
  keeps allowed inv (update_preprint_license env authors preprint_id)
    (fun _ => True).
Proof.
  unfold update_preprint_license. repeat header_step.
  eapply keeps_bind; [apply license_block_headers | intros ? ?].
  repeat header_step. header_done.
Qed.

End Headers.

Lemma submit_deposit_headers (env : environment) (pdf : string) (form : Form)
  (key : string) :
  hoare (fun p => api_key (repository p) = Some key)
    (submit_deposit env pdf form) (carries (api_headers key))
    (fun _ _ => True).
Proof.
  unfold submit_deposit.
  eapply hoare_bind; [apply hoare_gets | intros api; cbv beta].
  destruct (negb (PyStr.truthy api)); [apply hoare_raise|].
  eapply hoare_bind; [apply hoare_gets | intros repo; cbv beta].
  destruct (api_key repo) as [key'|] eqn:Ek; [|apply hoare_raise].
  apply hoare_pre_pure with (F := key' = key).
  { intros p ((Hk & _) & ->). congruence. }
  intros ->.
  eapply hoare_bind; [apply hoare_modify | intros u0; cbv beta].
  eapply hoare_bind; [apply hoare_get_primary_data | intros r; cbv beta].
  eapply hoare_bind; [apply hoare_modify | intros u1; cbv beta].
  eapply hoare_bind; [apply hoare_lift | intros d; cbv beta].
  eapply hoare_bind; [apply hoare_modify | intros u2; cbv beta].
  apply hoare_of_keeps with (inv := fun p => headers p = Some (api_headers key))
                            (R := fun _ => True).
  2:{ intros p (p0 & _ & ->). reflexivity. }
  eapply keeps_bind; [apply create_node_headers | intros ? ?].
  repeat header_step.
  eapply keeps_bind; [apply get_newnode_osf_storage_headers | intros ? ?].
  repeat header_step.
  eapply keeps_bind; [apply add_contributors_headers | intros ? ?].
  eapply keeps_bind; [apply create_license_headers | intros ? ?].
  eapply keeps_bind; [apply create_preprint_headers | intros ? ?].
  repeat header_step.
  eapply keeps_bind; [apply update_preprint_license_headers | intros ? ?].
  repeat header_step. header_done.
Qed.

(** X7. Every request of a deposit, the upload of the PDF included,
    carries the bearer token of the repository and the JSON:API content
    type, whatever headers the instance held before. *)
Theorem deposit_requests_authenticated (env : environment) (pdf : string)
  (form : Form) (st : state) (key : string) :
  api_key (repository (self st)) = Some key ->
  exists evs,
    journal (snd (submit_deposit env pdf form st)) = (journal st ++ evs)%list
    /\ forall rq, In rq (sent evs) ->
         req_headers rq
         = [("Authorization", "Bearer " ++ key);
            ("Content-Type", "application/vnd.api+json")].
Proof.
  intros Hk.
  destruct (submit_deposit_headers env pdf form (key := key) st Hk)
    as ((evs & Ej & Hall) & _).
  exists evs. split; [exact Ej|].
  intros rq Hin. rewrite Forall_forall in Hall.
  apply (Hall (Http rq)). clear -Hin.
  induction evs as [|ev evs IH]; [contradiction|].
  destruct ev; simpl in *; try (right; apply IH; exact Hin).
  destruct Hin as [->|Hin]; [now left | right; now apply IH].
Qed.

(** ** The properties at work on the sandbox deposit *)

Lemma deposit_log_only_grows_witness :
  exists l', _logs (self (snd (submit_deposit Scenario.env "article.pdf"
                                  (Scenario.form_with Scenario.cc_by)
                                  Scenario.ready)))
             = Some ("" ++ l').
Proof.
  apply (deposit_log_only_grows Scenario.env "article.pdf"
           (Scenario.form_with Scenario.cc_by) Scenario.ready (l0 := "")).
  reflexivity.
Defined.

Lemma deposit_requests_authenticated_witness :
  exists evs,
    journal (snd (submit_deposit Scenario.env "article.pdf"
                    (Scenario.form_with Scenario.cc_by) Scenario.ready))
    = (journal Scenario.ready ++ evs)%list
    /\ forall rq, In rq (sent evs) ->
         req_headers rq
         = [("Authorization", "Bearer " ++ "s3cr3t");
            ("Content-Type", "application/vnd.api+json")].
Proof.
  apply (deposit_requests_authenticated Scenario.env "article.pdf"
           (Scenario.form_with Scenario.cc_by) Scenario.ready (key := "s3cr3t")).
  reflexivity.
Defined.


Lemma create_node_outcome_witness :
  let run := create_node Scenario.env "An abstract." ["a"; "b"; "c"]
               (authors Scenario.the_paper) Midway.prepared in
  fst run = Ok tt /\ node_id (self (snd run)) = Some (JStr "q7k2m").
Proof.
  refine (proj2 (proj2 (proj2
    (create_node_outcome Scenario.env "An abstract." ["a"; "b"; "c"]
       (authors Scenario.the_paper) Midway.prepared
       (pa := Scenario.the_paper) (l := "")
       (api := "https://test-api.osf.io/") (h := api_headers "s3cr3t")
       (r := Midway.node_reply)
       eq_refl eq_refl eq_refl eq_refl eq_refl)))
    eq_refl _ _ _ eq_refl eq_refl eq_refl).
Defined.

Lemma try_result_carries_log_witness :
  let run := wrapper_try Scenario.env
               (Scenario.raising Scenario.create_project_failed) Midway.ada
               Scenario.ready in
  exists r, fst run = Ok r /\ logs r = _logs (self (snd run)).
Proof.
  cbv zeta. eexists. split; [vm_compute; reflexivity|].
  apply try_result_carries_log. vm_compute. reflexivity.
Defined.



Lemma scenario_accepts_failed :
  In "failed" (map fst (DEPOSIT_STATUS_CHOICES Scenario.env)).
Proof. simpl. auto. Qed.

Lemma try_DepositError_reported_witness :
  fst (wrapper_try Scenario.env
         (Scenario.raising Scenario.create_project_failed) Midway.ada
         Scenario.ready)
  = Ok {| identifier := None; splash_url := None; pdf_url := None;
          logs := Some ("" ++ ("Message: "
                               ++ "Unable to create a project on OSF.") ++ nl);
          status := "failed";
          message := Some "Unable to create a project on OSF.";
          oairecord := None; additional_info := [] |}.
Proof.
  rewrite (proj1 (@try_DepositError_reported Scenario.env
                    (Scenario.raising Scenario.create_project_failed)
                    Midway.ada Scenario.ready Scenario.ready
                    scenario_accepts_failed
                    Scenario.create_project_failed
                    "Unable to create a project on OSF." [] ""
                    eq_refl eq_refl eq_refl eq_refl eq_refl)).
  reflexivity.
Defined.

Lemma try_exception_text_escapes_witness :
  wrapper_try Scenario.env
    (Scenario.raising
       (new_exn IOError ("r" ++ String (ascii_of_nat 233) "seau injoignable")))
    Midway.ada Scenario.ready
  = (Raise (new_exn UnicodeEncodeError
              "'ascii' codec can't encode character: ordinal not in range(128)"),
     {| self := set_logs (Some ("Caught exception:" ++ nl))
                  (self Scenario.ready);
        journal := [] |}).
Proof.
  apply (@try_exception_text_escapes Scenario.env
           (Scenario.raising
              (new_exn IOError
                 ("r" ++ String (ascii_of_nat 233) "seau injoignable")))
           Midway.ada Scenario.ready Scenario.ready
           (new_exn IOError ("r" ++ String (ascii_of_nat 233) "seau injoignable"))
           "" eq_refl eq_refl eq_refl eq_refl eq_refl).
Defined.

Lemma try_exception_masked_witness :
  exists r,
    fst (wrapper_try Scenario.env (Scenario.raising Scenario.missing_key)
           Midway.ada Scenario.ready) = Ok r
    /\ status r = "failed"
    /\ message r = Some GENERIC_MESSAGE.
Proof.
  rewrite (proj1 (@try_exception_masked Scenario.env
                    (Scenario.raising Scenario.missing_key)
                    Midway.ada Scenario.ready Scenario.ready
                    scenario_accepts_failed Scenario.missing_key ""
                    eq_refl eq_refl eq_refl eq_refl eq_refl eq_refl)).
  eexists. repeat split.
Defined.

Lemma try_success_attaches_witness :
  exists r,
    fst (wrapper_try Scenario.env (Scenario.returning Midway.deposited)
           Midway.ada Scenario.ready) = Ok r
    /\ oairecord r
       = Some {| rec_source := "osf";
                 rec_identifier := "deposition:7:https://test.osf.io/q7k2m";
                 rec_splash_url := Some "https://test.osf.io/w3xzp";
                 rec_pdf_url := Some "https://test.osf.io/w3xzp/download" |}.
Proof.
  rewrite (@try_success_attaches Scenario.env
             (Scenario.returning Midway.deposited) Midway.ada
             Scenario.ready Scenario.ready Midway.deposited
             Scenario.the_paper _
             eq_refl eq_refl eq_refl eq_refl eq_refl).
  eexists. split; reflexivity.
Defined.

Lemma try_success_plain_witness :
  fst (wrapper_try Scenario.env
         (Scenario.returning (Scenario.published None None None))
         Midway.ada Scenario.ready)
  = Ok (set_result_logs (Scenario.published None None None) (Some "")).
Proof.
  rewrite (@try_success_plain Scenario.env
             (Scenario.returning (Scenario.published None None None))
             Midway.ada Scenario.ready Scenario.ready
             (Scenario.published None None None)
             eq_refl eq_refl eq_refl).
  reflexivity.
Defined.

(** X20. When the notification callback raises while a [DepositError] is
    handled, its exception leaves the [try] statement: the clause for the
    other exceptions does not apply to what a handler raises.  The
    message was logged and the callback was called once. *)
Theorem try_callback_error_escapes (env : environment)
  (submit_deposit : M DepositResult) (payload : Payload) (st st1 : state)
  (e e' : exn) (X : string) (rest : list string) (l : string) :
  submit_deposit st = (Raise e, st1) ->
  is_DepositError e = true ->
  exn_args e = X :: rest ->
  _logs (self st1) = Some l ->
  let told := {| payload_name := payload_name payload;
                 payload_repo := payload_repo payload;
                 payload_paperurl := payload_paperurl payload ++ " " ++ X |} in
  DEPOSIT_NOTIFICATION_CALLBACK env told = Raise e' ->
  wrapper_try env submit_deposit payload st
  = (Raise e',
     {| self := set_logs (Some (l ++ ("Message: " ++ X) ++ nl)) (self st1);
        journal := (journal st1 ++ [Notify told])%list |}).
Proof.
  intros Hs Hd Ha Hl told Hc.
  unfold wrapper_try, try_except, bind. rewrite Hs, Hd.
  unfold args0, log, bind, gets, modify, notify, bind, emit, lift, ret.
  rewrite Ha. cbn [fst snd self journal]. rewrite Hl.
  unfold told in Hc. cbn [fst snd self journal payload_name payload_repo
                            payload_paperurl] in Hc |- *.
  now rewrite Hc.
Qed.

Lemma try_callback_error_escapes_witness :
  fst (wrapper_try
         (Scenario.env_with Scenario.failing_callback Scenario.server)
         (Scenario.raising Scenario.create_project_failed) Midway.ada
         Scenario.ready)
  = Raise (new_exn (OtherException "smtplib.SMTPException") "mail server down").
Proof.
  rewrite (@try_callback_error_escapes
             (Scenario.env_with Scenario.failing_callback Scenario.server)
             (Scenario.raising Scenario.create_project_failed) Midway.ada
             Scenario.ready Scenario.ready Scenario.create_project_failed
             (new_exn (OtherException "smtplib.SMTPException") "mail server down")
             "Unable to create a project on OSF." [] ""
             eq_refl eq_refl eq_refl eq_refl eq_refl).
  reflexivity.
Defined.
